(** * mcp-pve: the tool-gating and credential-sanitizing request pipeline

    A shallow embedding of the secret registry and sanitizer and of the
    request engine [PveClient] (both in [src/core/errors.ts]; the engine is
    imported elsewhere as [core/client.ts]), of the capability gate
    ([src/core/tools.ts]), of the configuration loader, of the twelve
    registration modules and of startup ([src/index.ts]), followed by the
    properties the specification states about them and by further
    properties of the code. *)

From Stdlib Require Import String Ascii DecimalString.
From Stdlib Require Import List Bool Arith NArith Lia.
Import ListNotations.

Set Implicit Arguments.
Set Warnings "-register-all".

(* ===================================================================== *)
(** * JavaScript strings *)
(* ===================================================================== *)

(** A JavaScript string is a finite sequence of UTF-16 code units.  A code
    unit is kept as an [N]; the operations below never produce a code unit
    they did not receive or take from a literal. *)
Module JsString.

Definition char : Type := N.
Definition jsstring : Type := list char.

(** An ASCII literal of the source as a code unit sequence. *)
Definition lit (s : string) : jsstring :=
  map N_of_ascii (list_ascii_of_string s).

(** The double quote, U+0022, and the em dash, U+2014. *)
Definition dquote : jsstring := [34%N].
Definition emdash : jsstring := [8212%N].

Fixpoint eqb (a b : jsstring) : bool :=
  match a, b with
  | [], [] => true
  | x :: a', y :: b' => N.eqb x y && eqb a' b'
  | _, _ => false
  end.

(** [startsWith]: [prefixb p s] holds when [p] is a prefix of [s]. *)
Fixpoint prefixb (p s : jsstring) : bool :=
  match p, s with
  | [], _ => true
  | _ :: _, [] => false
  | x :: p', y :: s' => N.eqb x y && prefixb p' s'
  end.

(** [String.prototype.includes]: [p] occurs somewhere in [s]. *)
Fixpoint includes (s p : jsstring) : bool :=
  prefixb p s ||
  match s with
  | [] => false
  | _ :: s' => includes s' p
  end.

(** [Array.prototype.join] on strings. *)
Fixpoint join (sep : jsstring) (parts : list jsstring) : jsstring :=
  match parts with
  | [] => []
  | [x] => x
  | x :: rest => x ++ sep ++ join sep rest
  end.

(** Template interpolation of a non-negative integer, as for
    [`${response.status}`]. *)
Definition of_N (n : N) : jsstring :=
  lit (NilZero.string_of_uint (N.to_uint n)).

(** ECMAScript [WhiteSpace] and [LineTerminator] code units: what [\s]
    matches and what [trim] strips. *)
Definition is_space (c : char) : bool :=
  existsb (N.eqb c)
    [9; 10; 11; 12; 13; 32; 160; 5760; 8192; 8193; 8194; 8195; 8196; 8197;
     8198; 8199; 8200; 8201; 8202; 8232; 8233; 8239; 8287; 12288; 65279]%N.

Definition non_space (c : char) : bool := negb (is_space c).

(** Longest prefix of [s] whose code units satisfy [f]. *)
Fixpoint take_while (f : char -> bool) (s : jsstring) : jsstring :=
  match s with
  | [] => []
  | c :: s' => if f c then c :: take_while f s' else []
  end.

Fixpoint drop_while (f : char -> bool) (s : jsstring) : jsstring :=
  match s with
  | [] => []
  | c :: s' => if f c then drop_while f s' else s
  end.

(** ASCII lower-casing, used only to look for a word regardless of case. *)
Definition ascii_lower (c : char) : char :=
  if (65 <=? c)%N && (c <=? 90)%N then (c + 32)%N else c.

(** ** Replacing matches, left to right

    [String.prototype.replaceAll] with a string pattern and
    [String.prototype.replace] with a global regular expression both walk
    the subject from the left: where a match starts they emit the
    replacement and resume after the match, elsewhere they copy one code
    unit.  [match_here s] is the length of the match that starts at the
    head of [s], if there is one.  [skip] counts the code units of the
    current match still to be passed over.  A match of length zero leaves
    the code unit in place and the walk advances by one, and is also
    tried at the very end of the subject. *)
Fixpoint replace_scan (match_here : jsstring -> option nat) (r : jsstring)
         (skip : nat) (s : jsstring) : jsstring :=
  match s with
  | [] =>
      match skip, match_here [] with
      | O, Some _ => r
      | _, _ => []
      end
  | c :: s' =>
      match skip with
      | S k => replace_scan match_here r k s'
      | O =>
          match match_here s with
          | Some O => r ++ c :: replace_scan match_here r O s'
          | Some (S n) => r ++ replace_scan match_here r n s'
          | None => c :: replace_scan match_here r O s'
          end
      end
  end.

(** The match of a literal pattern at the head of the subject. *)
Definition literal_here (p : jsstring) (s : jsstring) : option nat :=
  if prefixb p s then Some (length p) else None.

(** [s.replaceAll(p, r)] for a replacement [r] without [$]. *)
Definition replaceAll (s p r : jsstring) : jsstring :=
  replace_scan (literal_here p) r 0 s.

End JsString.

Import JsString.

(* ===================================================================== *)
(** * Error sanitization layer ([errors.ts]) *)
(* ===================================================================== *)

Module Sanitizer.

(** [SENSITIVE_PATTERNS]: the mutable module-level array, threaded
    explicitly.  It starts empty. *)
Definition registry : Type := list jsstring.
Definition SENSITIVE_PATTERNS : registry := [].

(** [registerSensitivePattern]: [pattern && pattern.length > 0] guards the
    [push]. *)
Definition registerSensitivePattern (pattern : jsstring) (reg : registry)
  : registry :=
  match pattern with
  | [] => reg
  | _ :: _ => if (0 <? length pattern) then reg ++ [pattern] else reg
  end.

Definition REDACTED : jsstring := lit "[REDACTED]".

(** ** The two regular expressions

    Both have the shape [keyword \s* \S+] or [keyword \S+] with flags
    [gi].  Without the [u] flag, case-insensitive comparison canonicalizes
    single code units with [toUpperCase] and never maps a code unit of 128
    or more to one below 128; against the ASCII keywords used here this
    is ASCII case-insensitivity, which [canonicalize] implements. *)
Definition canonicalize (c : char) : char :=
  if (97 <=? c)%N && (c <=? 122)%N then (c - 32)%N else c.

Definition ci_eq (a b : char) : bool :=
  N.eqb (canonicalize a) (canonicalize b).

(** Strip a case-insensitive occurrence of [kw] from the head of [s]. *)
Fixpoint ci_strip (kw s : jsstring) : option jsstring :=
  match kw with
  | [] => Some s
  | k :: kw' =>
      match s with
      | [] => None
      | c :: s' => if ci_eq k c then ci_strip kw' s' else None
      end
  end.

Record regex : Type := {
  keyword : jsstring;   (* matched case-insensitively *)
  gap : bool            (* whether [\s*] stands between keyword and [\S+] *)
}.

(** The greedy match at the head of [s].  [\s*] takes every white space
    code unit; giving one back never helps, because [\S+] would then have
    to start on it.  [\S+] takes the whole run that follows and needs at
    least one code unit. *)
Definition regex_here (rx : regex) (s : jsstring) : option nat :=
  match ci_strip (keyword rx) s with
  | None => None
  | Some rest =>
      let ws := if gap rx then take_while is_space rest else [] in
      let body := take_while non_space (skipn (length ws) rest) in
      match body with
      | [] => None
      | _ :: _ => Some (length (keyword rx) + length ws + length body)
      end
  end.

(** [s.replace(rx, r)] for a global [rx] and a replacement without [$]. *)
Definition replace_regex (s : jsstring) (rx : regex) (r : jsstring)
  : jsstring :=
  replace_scan (regex_here rx) r 0 s.

(** [/PVEAPIToken=\S+/gi] and its replacement. *)
Definition token_rx : regex :=
  {| keyword := lit "PVEAPIToken="; gap := false |}.
Definition token_redacted : jsstring := lit "PVEAPIToken=[REDACTED]".

(** [/authorization:\s*\S+/gi] and its replacement. *)
Definition auth_rx : regex :=
  {| keyword := lit "authorization:"; gap := true |}.
Definition auth_redacted : jsstring := lit "authorization: [REDACTED]".

(** The [for ... of] loop over the registry. *)
Definition redact_patterns (reg : registry) (message : jsstring)
  : jsstring :=
  fold_left (fun sanitized pattern => replaceAll sanitized pattern REDACTED)
            reg message.

(** [sanitizeMessage], reading the registry it is given. *)
Definition sanitizeMessage (reg : registry) (message : jsstring)
  : jsstring :=
  let sanitized := redact_patterns reg message in
  let sanitized := replace_regex sanitized token_rx token_redacted in
  let sanitized := replace_regex sanitized auth_rx auth_redacted in
  sanitized.

End Sanitizer.

Import Sanitizer.

(* ===================================================================== *)
(** * JavaScript values, thrown values and awaited results *)
(* ===================================================================== *)

Module Js.

(** The values the pipeline handles: what [JSON.parse] can produce, and
    [undefined].  Numbers are never computed with; one is kept as the text
    [Number::toString] gives it, which is all the code ever asks of it.
    The properties of an object are listed in the order in which
    [Object.entries] enumerates them. *)
Inductive value : Type :=
| VUndefined
| VNull
| VBool (b : bool)
| VNumber (text : jsstring)
| VString (s : jsstring)
| VArray (items : list value)
| VObject (props : list (jsstring * value)).

(** Own property lookup in a plain object; the first entry of a key is
    the property. *)
Fixpoint lookup (key : jsstring) (props : list (jsstring * value))
  : option value :=
  match props with
  | [] => None
  | (k, v) :: rest => if JsString.eqb k key then Some v else lookup key rest
  end.

(** [v.key] for a key that is neither an array index nor [length] (the
    code reads [data], [errors], [version] and [release]).  [None] is the
    [TypeError] of reading a property of [null] or [undefined]. *)
Definition member (v : value) (key : jsstring) : option value :=
  match v with
  | VUndefined | VNull => None
  | VObject props =>
      match lookup key props with
      | Some x => Some x
      | None => Some VUndefined
      end
  | _ => Some VUndefined
  end.

(** [v === undefined]. *)
Definition is_undefined (v : value) : bool :=
  match v with VUndefined => true | _ => false end.

(** [ToBoolean]. *)
Definition truthy (v : value) : bool :=
  match v with
  | VUndefined | VNull => false
  | VBool b => b
  | VNumber t => negb (JsString.eqb t (lit "0") || JsString.eqb t (lit "NaN"))
  | VString s => match s with [] => false | _ :: _ => true end
  | VArray _ | VObject _ => true
  end.

(** The text [ToString] gives when the conversion does not throw: a
    primitive as such, an array as its elements joined by commas ([null]
    and [undefined] as the empty text), a plain object as
    [[object Object]]. *)
Fixpoint string_of (v : value) : jsstring :=
  match v with
  | VUndefined => lit "undefined"
  | VNull => lit "null"
  | VBool true => lit "true"
  | VBool false => lit "false"
  | VNumber t => t
  | VString s => s
  | VArray items =>
      join (lit ",")
           (map (fun x => match x with
                          | VUndefined | VNull => []
                          | _ => string_of x
                          end) items)
  | VObject _ => lit "[object Object]"
  end.

(** Whether [ToString] succeeds.  In a parsed object an own property
    [toString] hides [Object.prototype.toString]; it is not callable, the
    inherited [valueOf] gives back the object, and the conversion throws.
    [Array.prototype.join] converts the elements in turn. *)
Fixpoint converts (v : value) : bool :=
  match v with
  | VArray items => forallb converts items
  | VObject props =>
      match lookup (lit "toString") props with
      | Some _ => false
      | None => true
      end
  | _ => true
  end.

Fixpoint indexed {A : Type} (i : N) (l : list A) : list (jsstring * A) :=
  match l with
  | [] => []
  | x :: l' => (of_N i, x) :: indexed (i + 1) l'
  end.

(** [Object.entries] of a value that passed a truthiness test. *)
Definition entries (v : value) : list (jsstring * value) :=
  match v with
  | VObject props => props
  | VArray items => indexed 0 items
  | VString s => indexed 0 (map (fun c => VString [c]) s)
  | _ => []
  end.

(** What a [throw] or a rejected promise carries.  [PveError] is the class
    of [errors.ts]; [OtherError] is any other instance of [Error]
    ([TypeError], [SyntaxError], [DOMException], ...); [NonError] is
    anything else. *)
Inductive thrown : Type :=
| PveError (message : jsstring) (statusCode : option N)
| OtherError (name message : jsstring)
| NonError (v : value).

(** [err instanceof PveError] and [err instanceof Error]. *)
Definition instanceof_PveError (err : thrown) : bool :=
  match err with PveError _ _ => true | _ => false end.

Definition instanceof_Error (err : thrown) : bool :=
  match err with NonError _ => false | _ => true end.

(** [err instanceof Error ? err.message : String(err)].  What is thrown
    at the places that use this expression is an [Error]; for any other
    value the text is the one [String] gives when it succeeds. *)
Definition message_or_string (err : thrown) : jsstring :=
  match err with
  | PveError m _ => m
  | OtherError _ m => m
  | NonError v => string_of v
  end.

(** The [TypeError] V8 raises for [v.key] when [v] is [null] or
    [undefined]. *)
Definition cannot_read (v : value) (key : jsstring) : thrown :=
  OtherError (lit "TypeError")
    (lit "Cannot read properties of " ++ string_of v ++ lit " (reading '"
       ++ key ++ lit "')").

(** The [TypeError] V8 raises when [ToString] fails. *)
Definition cannot_convert : thrown :=
  OtherError (lit "TypeError") (lit "Cannot convert object to primitive value").

(** The result of awaiting a promise, or of running a block that may
    throw. *)
Inductive outcome (A : Type) : Type :=
| Resolved (a : A)
| Rejected (err : thrown).
Arguments Resolved {A} a.
Arguments Rejected {A} err.

Definition bind {A B : Type} (m : outcome A) (k : A -> outcome B)
  : outcome B :=
  match m with
  | Resolved a => k a
  | Rejected err => Rejected err
  end.

(** [try { body } catch (err) { handler }]. *)
Definition try_catch {A : Type} (body : outcome A)
           (handler : thrown -> outcome A) : outcome A :=
  match body with
  | Resolved a => Resolved a
  | Rejected err => handler err
  end.

(** Property read as a step that may throw. *)
Definition read (v : value) (key : jsstring) : outcome value :=
  match member v key with
  | Some x => Resolved x
  | None => Rejected (cannot_read v key)
  end.

(** [ToString], as a template literal applies it to a value. *)
Definition to_string (v : value) : outcome jsstring :=
  if converts v then Resolved (string_of v) else Rejected cannot_convert.

(** [list.map(f)] for a callback that may throw: the first throw ends
    the walk. *)
Fixpoint map_throwing {A B : Type} (f : A -> outcome B) (l : list A)
  : outcome (list B) :=
  match l with
  | [] => Resolved []
  | x :: l' =>
      bind (f x) (fun y =>
      bind (map_throwing f l') (fun ys => Resolved (y :: ys)))
  end.

End Js.

Import Js.

Declare Scope js_scope.
Delimit Scope js_scope with js.
Notation "x <- m ;; k" := (bind m (fun x => k))
  (at level 61, m at next level, right associativity) : js_scope.
Notation "a +++ b" := (@app JsString.char a b)
  (at level 60, right associativity) : js_scope.
Open Scope js_scope.

(* ===================================================================== *)
(** * Shared types ([types/index.ts]) and logging ([logger.ts]) *)
(* ===================================================================== *)

Module Types.

Inductive AccessTier : Type := read_only | read_execute | full.

Definition AccessTier_name (t : AccessTier) : jsstring :=
  match t with
  | read_only => lit "read-only"
  | read_execute => lit "read-execute"
  | full => lit "full"
  end.

Inductive ToolCategory : Type :=
| nodes | qemu | lxc | storage | cluster | access
| pools | network | firewall | backup | tasks | ha.

Definition ToolCategory_name (c : ToolCategory) : jsstring :=
  match c with
  | nodes => lit "nodes"
  | qemu => lit "qemu"
  | lxc => lit "lxc"
  | storage => lit "storage"
  | cluster => lit "cluster"
  | access => lit "access"
  | pools => lit "pools"
  | network => lit "network"
  | firewall => lit "firewall"
  | backup => lit "backup"
  | tasks => lit "tasks"
  | ha => lit "ha"
  end.

Definition VALID_CATEGORIES : list ToolCategory :=
  [nodes; qemu; lxc; storage; cluster; access;
   pools; network; firewall; backup; tasks; ha].

Record AppConfig : Type := {
  baseUrl : jsstring;
  tokenId : jsstring;
  tokenSecret : jsstring;
  accessTier : AccessTier;
  categories : option (list jsstring);   (* [string[] | null] *)
  verifySsl : bool;
  debug : bool
}.

(** [Array.prototype.includes] on strings. *)
Definition array_includes (l : list jsstring) (x : jsstring) : bool :=
  existsb (fun y => JsString.eqb y x) l.

(** One call of [logger.info], [logger.warn], [logger.error] or
    [logger.debug]. *)
Inductive level : Type := INFO | WARN | ERROR | DEBUG.
Definition log_line : Type := (level * jsstring)%type.

End Types.

Import Types.

(* ===================================================================== *)
(** * Request engine ([PveClient], imported as [core/client.ts]) *)
(* ===================================================================== *)

Module Client.

(** Request timeout in milliseconds. *)
Definition REQUEST_TIMEOUT_MS : N := 30000.

(** The second argument of [fetch]. *)
Record RequestInit : Type := {
  init_method : jsstring;
  init_headers : list (jsstring * jsstring);
  init_body : option jsstring;
  init_signal_timeout : N          (* [AbortSignal.timeout(...)] *)
}.

(** What the code reads of a [Response].  [json] and [text] are awaited
    and may reject. *)
Record Response : Type := {
  status : N;
  statusText : jsstring;
  content_type : option jsstring;  (* [headers.get("content-type")] *)
  text : outcome jsstring;
  json : outcome value
}.

(** [response.ok]: a status in the range 200 to 299. *)
Definition ok (r : Response) : bool :=
  (200 <=? status r)%N && (status r <=? 299)%N.

(** The platform the engine runs on: [fetch], which answers, or rejects
    when the network fails or the abort signal fires, and
    [JSON.stringify]. *)
Record World : Type := {
  fetch : jsstring -> RequestInit -> outcome Response;
  JSON_stringify : value -> jsstring
}.

(** How [fetch] rejects when [AbortSignal.timeout] fires, and when the
    host cannot be reached. *)
Definition timeout_rejection : thrown :=
  OtherError (lit "TimeoutError")
             (lit "The operation was aborted due to timeout").
Definition unreachable_rejection : thrown :=
  OtherError (lit "TypeError") (lit "fetch failed").

(** The private fields of the class; [client_baseUrl] is [baseUrl]. *)
Record PveClient : Type := {
  authHeader : jsstring;
  apiBase : jsstring;
  client_baseUrl : jsstring
}.

(** The constructor. *)
Definition new_PveClient (config : AppConfig) : PveClient :=
  {| client_baseUrl := baseUrl config;
     authHeader :=
       lit "PVEAPIToken=" +++ tokenId config +++ lit "=" +++
       tokenSecret config;
     apiBase := baseUrl config +++ lit "/api2/json" |}.

(** The text appended to the status line for a structured error body:
    [Object.entries(errBody.errors).map(([k, v]) => `${k}: ${v}`)
     .join(", ")], or nothing when [errBody.errors] is falsy. *)
Definition entry_text (kv : jsstring * value) : outcome jsstring :=
  v <- to_string (snd kv) ;;
  Resolved (fst kv +++ lit ": " +++ v).

Definition error_messages (errBody : value) : outcome (option jsstring) :=
  errors <- read errBody (lit "errors") ;;
  if truthy errors then
    texts <- map_throwing entry_text (entries errors) ;;
    Resolved (Some (join (lit ", ") texts))
  else Resolved None.

(** [detail] after the inner [try]/[catch], whose handler is empty. *)
Definition failure_detail (response : Response) : jsstring :=
  let detail := of_N (status response) +++ lit " " +++ statusText response in
  match (errBody <- json response ;; error_messages errBody) with
  | Resolved (Some messages) =>
      detail +++ lit " " +++ emdash +++ lit " " +++ messages
  | Resolved None => detail
  | Rejected _ => detail
  end.

(** The unwrapping of a successful response. *)
Definition unwrap (response : Response) : outcome value :=
  let contentType :=
    match content_type response with
    | Some header => header
    | None => []
    end in
  if negb (includes contentType (lit "json")) then
    text <- text response ;;
    Resolved (match text with [] => VNull | _ :: _ => VString text end)
  else
    json <- json response ;;
    data <- read json (lit "data") ;;
    Resolved (if negb (is_undefined data) then data else json).

(** The URL and the options [request] passes to [fetch]. *)
Definition request_url (c : PveClient) (path : jsstring) : jsstring :=
  apiBase c +++ path.

Definition request_init (w : World) (c : PveClient) (method : jsstring)
           (body : option value) : RequestInit :=
  {| init_method := method;
     init_headers :=
       (lit "Authorization", authHeader c) ::
       match body with
       | Some _ => [(lit "Content-Type", lit "application/json")]
       | None => []
       end;
     init_body := option_map (JSON_stringify w) body;
     init_signal_timeout := REQUEST_TIMEOUT_MS |}.

(** The core request method. *)
Definition request (reg : registry) (w : World) (c : PveClient)
           (method path : jsstring) (body : option value) : outcome value :=
  try_catch
    (response <-
       fetch w (request_url c path) (request_init w c method body) ;;
     if negb (ok response) then
       Rejected
         (PveError
            (sanitizeMessage reg
               (method +++ lit " " +++ path +++ lit " failed: " +++
                failure_detail response))
            (Some (status response)))
     else unwrap response)
    (fun err =>
       if instanceof_PveError err then Rejected err
       else
         Rejected (PveError (sanitizeMessage reg (message_or_string err))
                            None)).

Definition get reg w c (path : jsstring) : outcome value :=
  request reg w c (lit "GET") path None.
Definition post reg w c (path : jsstring) (body : option value)
  : outcome value :=
  request reg w c (lit "POST") path body.
Definition put reg w c (path : jsstring) (body : option value)
  : outcome value :=
  request reg w c (lit "PUT") path body.
Definition delete reg w c (path : jsstring) : outcome value :=
  request reg w c (lit "DELETE") path None.

(** [a?.key ?? fallback], rendered by a template literal. *)
Definition optional_member (a : value) (key : jsstring) (fallback : value)
  : value :=
  match member a key with
  | None | Some VUndefined | Some VNull => fallback
  | Some x => x
  end.

Definition authentication_failed : jsstring :=
  lit "Authentication failed -- check PVE_TOKEN_ID and PVE_TOKEN_SECRET".

Definition version_url (c : PveClient) : jsstring :=
  apiBase c +++ lit "/version".

Definition version_init (c : PveClient) : RequestInit :=
  {| init_method := lit "GET";
     init_headers := [(lit "Authorization", authHeader c)];
     init_body := None;
     init_signal_timeout := REQUEST_TIMEOUT_MS |}.

(** [PveClient.validateConnection]: the line it logs on success. *)
Definition client_validateConnection (reg : registry) (w : World)
           (c : PveClient) : outcome log_line :=
  try_catch
    (response <- fetch w (version_url c) (version_init c) ;;
     if (status response =? 401)%N || (status response =? 403)%N then
       Rejected (PveError authentication_failed (Some (status response)))
     else if negb (ok response) then
       Rejected
         (PveError
            (lit "Connection check failed: " +++ of_N (status response) +++
             lit " " +++ statusText response)
            (Some (status response)))
     else
       json <- json response ;;
       data <- read json (lit "data") ;;
       let version :=
         optional_member data (lit "version") (VString (lit "unknown")) in
       let release := optional_member data (lit "release") (VString []) in
       version_text <- to_string version ;;
       release_text <-
         (if truthy release then
            text <- to_string release ;;
            Resolved (lit ", release: " +++ text)
          else Resolved []) ;;
       Resolved
         (INFO,
          lit "Connected to Proxmox VE at " +++ client_baseUrl c +++
          lit " (version: " +++ version_text +++ release_text +++ lit ")"))
    (fun err =>
       if instanceof_PveError err then Rejected err
       else
         Rejected
           (PveError
              (sanitizeMessage reg
                 (lit "Cannot connect to Proxmox VE at " +++
                  client_baseUrl c +++ lit ": " +++ message_or_string err))
              None)).

(** [createClient]: registers the credentials, then builds the client. *)
Definition createClient (config : AppConfig) (reg : registry)
  : registry * PveClient :=
  let reg := registerSensitivePattern (tokenId config) reg in
  let reg := registerSensitivePattern (tokenSecret config) reg in
  (reg, new_PveClient config).

(** How startup goes on after [validateConnection(client)]. *)
Inductive startup : Type :=
| Proceed
| Exit (code : N).

(** The module-level [validateConnection]: what it logs, and whether the
    process exits. *)
Definition validateConnection (reg : registry) (w : World) (c : PveClient)
  : list log_line * startup :=
  match client_validateConnection reg w c with
  | Resolved line => ([line], Proceed)
  | Rejected error =>
      ([(ERROR, lit "Failed to connect to Proxmox VE.");
        (ERROR,
         lit "Check that PVE_BASE_URL is correct and the PVE host is reachable.")]
       ++ (if instanceof_Error error then
             [(ERROR,
               lit "Details: " +++
               sanitizeMessage reg (message_or_string error))]
           else []),
       Exit 1)
  end.

End Client.

Import Client.

(* ===================================================================== *)
(** * Category parsing ([config.ts]) *)
(* ===================================================================== *)

Module Config.

(** [value.split(",")]. *)
Fixpoint split (sep : JsString.char) (s : jsstring) : list jsstring :=
  match s with
  | [] => [[]]
  | c :: s' =>
      if N.eqb c sep then [] :: split sep s'
      else
        match split sep s' with
        | [] => [[c]]
        | h :: t => (c :: h) :: t
        end
  end.

(** [String.prototype.trim]. *)
Definition trim (s : jsstring) : jsstring :=
  rev (drop_while is_space (rev (drop_while is_space s))).

Definition is_valid_category (c : jsstring) : bool :=
  array_includes (map ToolCategory_name VALID_CATEGORIES) c.

(** [parseCategories]: the warning it logs, if any, and its result. *)
Definition parseCategories (value : option jsstring)
  : list log_line * option (list jsstring) :=
  match value with
  | None | Some [] => ([], None)
  | Some value =>
      let categories :=
        filter (fun s => (0 <? length s))
               (map trim (split 44%N value)) in
      let invalid := filter (fun c => negb (is_valid_category c)) categories in
      let warnings :=
        if (0 <? length invalid) then
          [(WARN,
            lit "Ignoring unknown categories: " +++ join (lit ", ") invalid
            +++ lit ". Valid: " +++
            join (lit ", ") (map ToolCategory_name VALID_CATEGORIES))]
        else [] in
      let valid := filter is_valid_category categories in
      (warnings, if (0 <? length valid) then Some valid else None)
  end.

End Config.

Import Config.

(* ===================================================================== *)
(** * Capability gate ([tools.ts]) *)
(* ===================================================================== *)

Module Gate.

Definition TIER_LEVELS (t : AccessTier) : N :=
  match t with
  | read_only => 0
  | read_execute => 1
  | full => 2
  end.

(** A property of an object literal: left out, or written with a value
    that may be [undefined] ([given None]). *)
Inductive property (A : Type) : Type :=
| omitted
| given (v : option A).
Arguments omitted {A}.
Arguments given {A} v.

(** [o.key]: [undefined] when the property is left out. *)
Definition property_value {A : Type} (p : property A) : option A :=
  match p with
  | omitted => None
  | given v => v
  end.

(** [ToolAnnotations] of the protocol SDK: every property is optional. *)
Record ToolAnnotations : Type := {
  own_title : property jsstring;
  own_readOnlyHint : property bool;
  own_destructiveHint : property bool;
  own_idempotentHint : property bool;
  own_openWorldHint : property bool
}.

(** [a.readOnlyHint] and [a.destructiveHint]. *)
Definition readOnlyHint (a : ToolAnnotations) : option bool :=
  property_value (own_readOnlyHint a).
Definition destructiveHint (a : ToolAnnotations) : option bool :=
  property_value (own_destructiveHint a).

(** A [ZodRawShape]; the gate only passes it on. *)
Inductive ZodRawShape : Type := Shape (fields : list jsstring).

(** What the wrapped executor answers; [content_text] is the [text] of a
    content item. *)
Record TextContent : Type := { type : jsstring; content_text : jsstring }.
Record CallToolResult : Type := {
  content : list TextContent;
  isError : option bool
}.

(** [tool_accessTier] is the [accessTier] of the options. *)
Record ToolRegistrationOptions : Type := {
  name : jsstring;
  description : jsstring;
  tool_accessTier : AccessTier;
  category : ToolCategory;
  annotations : option ToolAnnotations;
  inputSchema : option ZodRawShape;
  handler : value -> outcome jsstring
}.

Record ToolConfig : Type := {
  config_description : jsstring;
  config_inputSchema : option ZodRawShape;
  config_annotations : ToolAnnotations
}.

(** One call of [server.registerTool]; the server is the sequence of the
    calls it has received. *)
Record RegisteredTool : Type := {
  tool_name : jsstring;
  tool_config : ToolConfig;
  callback : registry -> value -> outcome CallToolResult
}.
Definition McpServer : Type := list RegisteredTool.

(** One property of [{ ...base, ...override }]: a property the second
    object has replaces the first's, also when its value is
    [undefined]. *)
Definition spread {A : Type} (base override : property A) : property A :=
  match override with
  | omitted => base
  | given v => given v
  end.

(** [{ readOnlyHint: ..., destructiveHint: false, ...options.annotations }]. *)
Definition merge_annotations (options : ToolRegistrationOptions)
  : ToolAnnotations :=
  let readOnly :=
    match tool_accessTier options with read_only => true | _ => false end in
  match annotations options with
  | None =>
      {| own_title := omitted;
         own_readOnlyHint := given (Some readOnly);
         own_destructiveHint := given (Some false);
         own_idempotentHint := omitted;
         own_openWorldHint := omitted |}
  | Some a =>
      {| own_title := spread omitted (own_title a);
         own_readOnlyHint :=
           spread (given (Some readOnly)) (own_readOnlyHint a);
         own_destructiveHint :=
           spread (given (Some false)) (own_destructiveHint a);
         own_idempotentHint := spread omitted (own_idempotentHint a);
         own_openWorldHint := spread omitted (own_openWorldHint a) |}
  end.

Definition unknown_error : jsstring := lit "An unknown error occurred".

(** The executor handed to [server.registerTool].  It reads
    [SENSITIVE_PATTERNS] when it is called, so the registry of that
    moment is an argument. *)
Definition wrapped_executor (options : ToolRegistrationOptions)
           (reg : registry) (args : value) : outcome CallToolResult :=
  try_catch
    (result <- handler options args ;;
     Resolved
       {| content := [{| type := lit "text"; content_text := result |}];
          isError := None |})
    (fun err =>
       let message :=
         match err with
         | PveError m _ | OtherError _ m => sanitizeMessage reg m
         | NonError _ => unknown_error
         end in
       Resolved
         {| content := [{| type := lit "text"; content_text := message |}];
            isError := Some true |}).

(** [registerTool]: its boolean result, the server after the call, and
    the line passed to [logger.debug]. *)
Definition registerTool (server : McpServer) (config : AppConfig)
           (options : ToolRegistrationOptions)
  : bool * McpServer * log_line :=
  if (TIER_LEVELS (accessTier config)
        <? TIER_LEVELS (tool_accessTier options))%N then
    (false, server,
     (DEBUG,
      lit "Skipping tool " +++ dquote +++ name options +++ dquote +++
      lit " (requires " +++ AccessTier_name (tool_accessTier options) +++
      lit ", running in " +++ AccessTier_name (accessTier config) +++
      lit " mode)"))
  else if
    match categories config with
    | None => false
    | Some allowed =>
        negb (array_includes allowed (ToolCategory_name (category options)))
    end
  then
    (false, server,
     (DEBUG,
      lit "Skipping tool " +++ dquote +++ name options +++ dquote +++
      lit " (category " +++ dquote +++
      ToolCategory_name (category options) +++ dquote +++
      lit " not in allowed categories)"))
  else
    let annotations := merge_annotations options in
    let toolConfig :=
      {| config_description := description options;
         config_inputSchema := inputSchema options;
         config_annotations := annotations |} in
    (true,
     server ++
     [{| tool_name := name options;
         tool_config := toolConfig;
         callback := wrapped_executor options |}],
     (DEBUG,
      lit "Registered tool: " +++ name options +++ lit " [" +++
      ToolCategory_name (category options) +++ lit "]")).

(** The three components of [registerTool]'s result. *)
Definition accepted (r : bool * McpServer * log_line) : bool := fst (fst r).
Definition server_after (r : bool * McpServer * log_line) : McpServer :=
  snd (fst r).

(** The filter as the specification words it: pass when the minimum
    tier does not exceed the process tier and the category list is empty
    or contains the category. *)
Definition spec_filter (minimumTier tier : AccessTier)
           (categoryList : list jsstring) (cat : ToolCategory) : bool :=
  (TIER_LEVELS minimumTier <=? TIER_LEVELS tier)%N &&
  (match categoryList with [] => true | _ :: _ => false end
   || array_includes categoryList (ToolCategory_name cat)).

End Gate.

Import Gate.

(* ===================================================================== *)
(** * Configuration loading (the loader that holds [parseCategories]) *)
(* ===================================================================== *)

Module Loader.

(** [process.env], as far as the loader and [main] read it: each variable
    is a string or [undefined]. *)
Record Env : Type := {
  PVE_BASE_URL : option jsstring;
  PVE_TOKEN_ID : option jsstring;
  PVE_TOKEN_SECRET : option jsstring;
  PVE_ACCESS_TIER : option jsstring;
  PVE_CATEGORIES : option jsstring;
  PVE_VERIFY_SSL : option jsstring;
  env_DEBUG : option jsstring        (* [DEBUG] *)
}.

(** [parseAccessTier]. *)
Definition parseAccessTier (env : Env) : AccessTier :=
  match PVE_ACCESS_TIER env with
  | Some tier =>
      if JsString.eqb tier (lit "read-only") then read_only
      else if JsString.eqb tier (lit "read-execute") then read_execute
      else full
  | None => full
  end.

(** [!v] for a variable of the environment. *)
Definition unset (v : option jsstring) : bool :=
  match v with
  | None | Some [] => true
  | Some (_ :: _) => false
  end.

(** [v!]: the string of a variable known to be set. *)
Definition the (v : option jsstring) : jsstring :=
  match v with
  | Some s => s
  | None => []
  end.

Definition is_slash (c : JsString.char) : bool := N.eqb c 47.

(** [s.replace(/\/+$/, "")]: the first position from which only slashes
    follow up to the end is where the one match starts; it is replaced by
    the empty string. *)
Fixpoint strip_trailing_slashes (s : jsstring) : jsstring :=
  match s with
  | [] => []
  | c :: s' => if forallb is_slash s then [] else c :: strip_trailing_slashes s'
  end.

Definition missing_variables (env : Env) : list jsstring :=
  (if unset (PVE_BASE_URL env) then [lit "PVE_BASE_URL"] else []) ++
  (if unset (PVE_TOKEN_ID env) then [lit "PVE_TOKEN_ID"] else []) ++
  (if unset (PVE_TOKEN_SECRET env) then [lit "PVE_TOKEN_SECRET"] else []).

(** [loadConfig]: the warnings [parseCategories] logs, and the
    configuration or the [Error] thrown. *)
Definition loadConfig (env : Env) : list log_line * outcome AppConfig :=
  let missing := missing_variables env in
  if (0 <? length missing) then
    ([],
     Rejected
       (OtherError (lit "Error")
          (lit "Missing required environment variables: " +++
           join (lit ", ") missing +++ lit ". " +++
           lit "Set these variables to connect to your Proxmox VE instance.")))
  else
    let verifySsl :=
      negb (match PVE_VERIFY_SSL env with
            | Some v => JsString.eqb v (lit "false")
            | None => false
            end) in
    let parsed := parseCategories (PVE_CATEGORIES env) in
    (fst parsed,
     Resolved
       {| baseUrl := strip_trailing_slashes (the (PVE_BASE_URL env));
          tokenId := the (PVE_TOKEN_ID env);
          tokenSecret := the (PVE_TOKEN_SECRET env);
          accessTier := parseAccessTier env;
          categories := snd parsed;
          verifySsl := verifySsl;
          debug := negb (unset (env_DEBUG env)) |}).

End Loader.

Import Loader.

(* ===================================================================== *)
(** * The registration modules ([tools/*.ts]) *)
(* ===================================================================== *)

Module Catalog.

(** The handlers of the tools, by tool name.  Registration stores a
    handler in the wrapped executor and never runs it; what each handler
    does with the client is not modelled, and everything below holds for
    every choice of handlers. *)
Definition Handlers : Type := jsstring -> value -> outcome jsstring.

(** One argument of [registerTool]. *)
Definition entry (h : Handlers) (n d : jsstring) (tier : AccessTier)
           (cat : ToolCategory) (a : option ToolAnnotations)
           (schema : option ZodRawShape) : ToolRegistrationOptions :=
  {| name := n; description := d; tool_accessTier := tier; category := cat;
     annotations := a; inputSchema := schema; handler := h n |}.

(** [annotations: { destructiveHint: true }]. *)
Definition destructive : option ToolAnnotations :=
  Some {| own_title := omitted; own_readOnlyHint := omitted;
          own_destructiveHint := given (Some true);
          own_idempotentHint := omitted; own_openWorldHint := omitted |}.

(** An [inputSchema] with the given keys. *)
Definition shape (keys : list string) : option ZodRawShape :=
  Some (Shape (map lit keys)).

(** A sequence of [registerTool] calls on the same server: the server
    after them and the lines passed to [logger.debug]. *)
Definition register_each (tools : list ToolRegistrationOptions)
           (server : McpServer) (config : AppConfig)
  : McpServer * list log_line :=
  fold_left
    (fun state options =>
       let r := registerTool (fst state) config options in
       (server_after r, snd state ++ [snd r]))
    tools (server, []).

(** The tools [registerNodeTools] registers, in order. *)
Definition nodes_tools (h : Handlers) : list ToolRegistrationOptions :=
  [entry h (lit "pve_list_nodes")
        (lit "List all nodes in the Proxmox VE cluster")
        read_only nodes None None;
   entry h (lit "pve_get_node_status")
        (lit "Get detailed status of a specific node including CPU, memory, uptime, and load")
        read_only nodes None (shape ["node"%string]);
   entry h (lit "pve_get_node_version")
        (lit "Get the PVE version information for a specific node")
        read_only nodes None (shape ["node"%string]);
   entry h (lit "pve_get_node_dns")
        (lit "Get DNS settings for a specific node")
        read_only nodes None (shape ["node"%string]);
   entry h (lit "pve_get_node_time")
        (lit "Get time and timezone information for a specific node")
        read_only nodes None (shape ["node"%string]);
   entry h (lit "pve_get_node_syslog")
        (lit "Get system log entries from a specific node")
        read_only nodes None (shape ["node"%string; "start"%string; "limit"%string]);
   entry h (lit "pve_list_node_services")
        (lit "List all system services and their status on a specific node")
        read_only nodes None (shape ["node"%string]);
   entry h (lit "pve_manage_node_service")
        (lit "Start, stop, restart, or reload a system service on a specific node")
        read_execute nodes None (shape ["node"%string; "service"%string; "command"%string])].

Definition registerNodeTools (h : Handlers) (server : McpServer)
           (config : AppConfig) : McpServer * list log_line :=
  register_each (nodes_tools h) server config.

(** [powerActions] of [registerQemuTools]. *)
Definition qemu_powerActions : list (jsstring * jsstring * jsstring) :=
  [(lit "start", lit "start", lit "Start");
   (lit "stop", lit "stop", lit "Stop (immediate)");
   (lit "shutdown", lit "shutdown", lit "Gracefully shut down");
   (lit "reboot", lit "reboot", lit "Reboot");
   (lit "suspend", lit "suspend", lit "Suspend");
   (lit "resume", lit "resume", lit "Resume");
   (lit "reset", lit "reset", lit "Reset (hard)")].

(** The tools [registerQemuTools] registers, in order. *)
Definition qemu_tools (h : Handlers) : list ToolRegistrationOptions :=
  [entry h (lit "pve_list_qemu_vms")
        (lit "List all QEMU virtual machines on a specific node")
        read_only qemu None (shape ["node"%string]);
   entry h (lit "pve_get_qemu_status")
        (lit "Get the current status of a QEMU VM including CPU, memory, disk, and network usage")
        read_only qemu None (shape ["node"%string; "vmid"%string]);
   entry h (lit "pve_get_qemu_config")
        (lit "Get the configuration of a QEMU VM")
        read_only qemu None (shape ["node"%string; "vmid"%string]);
   entry h (lit "pve_get_qemu_rrddata")
        (lit "Get RRD statistics (CPU, memory, disk, network) for a QEMU VM over a time period")
        read_only qemu None (shape ["node"%string; "vmid"%string; "timeframe"%string]);
   entry h (lit "pve_list_qemu_snapshots")
        (lit "List all snapshots of a QEMU VM")
        read_only qemu None (shape ["node"%string; "vmid"%string])]
  ++ map (fun pa =>
         let '(action, method, desc) := pa in
         entry h (lit "pve_" +++ action +++ lit "_qemu_vm")
           (desc +++ lit " a QEMU virtual machine")
           read_execute qemu None (shape ["node"%string; "vmid"%string]))
      qemu_powerActions
  ++ [entry h (lit "pve_migrate_qemu_vm")
        (lit "Migrate a QEMU VM to another node in the cluster")
        read_execute qemu None (shape ["node"%string; "vmid"%string; "target"%string; "online"%string]);
   entry h (lit "pve_create_qemu_vm")
        (lit "Create a new QEMU virtual machine")
        full qemu None (shape ["node"%string; "vmid"%string; "name"%string; "memory"%string; "cores"%string; "sockets"%string; "ostype"%string; "ide2"%string; "scsi0"%string; "net0"%string; "scsihw"%string; "boot"%string; "start"%string]);
   entry h (lit "pve_delete_qemu_vm")
        (lit "Delete a QEMU virtual machine and all its data. The VM must be stopped first.")
        full qemu destructive (shape ["node"%string; "vmid"%string; "purge"%string; "destroy-unreferenced-disks"%string]);
   entry h (lit "pve_update_qemu_config")
        (lit "Update the configuration of a QEMU VM")
        full qemu None (shape ["node"%string; "vmid"%string; "name"%string; "memory"%string; "cores"%string; "sockets"%string; "description"%string; "onboot"%string; "net0"%string; "scsi0"%string]);
   entry h (lit "pve_clone_qemu_vm")
        (lit "Clone a QEMU VM to create a new VM from it")
        full qemu None (shape ["node"%string; "vmid"%string; "newid"%string; "name"%string; "target"%string; "full"%string; "description"%string; "snapname"%string; "storage"%string]);
   entry h (lit "pve_create_qemu_snapshot")
        (lit "Create a snapshot of a QEMU VM")
        full qemu None (shape ["node"%string; "vmid"%string; "snapname"%string; "description"%string; "vmstate"%string]);
   entry h (lit "pve_delete_qemu_snapshot")
        (lit "Delete a snapshot of a QEMU VM")
        full qemu destructive (shape ["node"%string; "vmid"%string; "snapname"%string]);
   entry h (lit "pve_rollback_qemu_snapshot")
        (lit "Rollback a QEMU VM to a previous snapshot state")
        full qemu destructive (shape ["node"%string; "vmid"%string; "snapname"%string])].

Definition registerQemuTools (h : Handlers) (server : McpServer)
           (config : AppConfig) : McpServer * list log_line :=
  register_each (qemu_tools h) server config.

(** [powerActions] of [registerLxcTools]. *)
Definition lxc_powerActions : list (jsstring * jsstring * jsstring) :=
  [(lit "start", lit "start", lit "Start");
   (lit "stop", lit "stop", lit "Stop (immediate)");
   (lit "shutdown", lit "shutdown", lit "Gracefully shut down");
   (lit "reboot", lit "reboot", lit "Reboot");
   (lit "suspend", lit "suspend", lit "Suspend (freeze)");
   (lit "resume", lit "resume", lit "Resume (unfreeze)")].

(** The tools [registerLxcTools] registers, in order. *)
Definition lxc_tools (h : Handlers) : list ToolRegistrationOptions :=
  [entry h (lit "pve_list_lxc_containers")
        (lit "List all LXC containers on a specific node")
        read_only lxc None (shape ["node"%string]);
   entry h (lit "pve_get_lxc_status")
        (lit "Get the current status of an LXC container including CPU, memory, and disk usage")
        read_only lxc None (shape ["node"%string; "vmid"%string]);
   entry h (lit "pve_get_lxc_config")
        (lit "Get the configuration of an LXC container")
        read_only lxc None (shape ["node"%string; "vmid"%string]);
   entry h (lit "pve_get_lxc_rrddata")
        (lit "Get RRD statistics (CPU, memory, disk, network) for an LXC container over a time period")
        read_only lxc None (shape ["node"%string; "vmid"%string; "timeframe"%string]);
   entry h (lit "pve_list_lxc_snapshots")
        (lit "List all snapshots of an LXC container")
        read_only lxc None (shape ["node"%string; "vmid"%string])]
  ++ map (fun pa =>
         let '(action, method, desc) := pa in
         entry h (lit "pve_" +++ action +++ lit "_lxc_container")
           (desc +++ lit " an LXC container")
           read_execute lxc None (shape ["node"%string; "vmid"%string]))
      lxc_powerActions
  ++ [entry h (lit "pve_create_lxc_container")
        (lit "Create a new LXC container")
        full lxc None (shape ["node"%string; "vmid"%string; "ostemplate"%string; "hostname"%string; "memory"%string; "swap"%string; "cores"%string; "rootfs"%string; "net0"%string; "password"%string; "unprivileged"%string; "start"%string; "ssh_public_keys"%string; "storage"%string]);
   entry h (lit "pve_delete_lxc_container")
        (lit "Delete an LXC container and all its data. The container must be stopped first.")
        full lxc destructive (shape ["node"%string; "vmid"%string; "purge"%string; "force"%string; "destroy-unreferenced-disks"%string]);
   entry h (lit "pve_update_lxc_config")
        (lit "Update the configuration of an LXC container")
        full lxc None (shape ["node"%string; "vmid"%string; "hostname"%string; "memory"%string; "swap"%string; "cores"%string; "description"%string; "onboot"%string; "net0"%string]);
   entry h (lit "pve_clone_lxc_container")
        (lit "Clone an LXC container to create a new container from it")
        full lxc None (shape ["node"%string; "vmid"%string; "newid"%string; "hostname"%string; "target"%string; "full"%string; "description"%string; "snapname"%string; "storage"%string]);
   entry h (lit "pve_create_lxc_snapshot")
        (lit "Create a snapshot of an LXC container")
        full lxc None (shape ["node"%string; "vmid"%string; "snapname"%string; "description"%string]);
   entry h (lit "pve_delete_lxc_snapshot")
        (lit "Delete a snapshot of an LXC container")
        full lxc destructive (shape ["node"%string; "vmid"%string; "snapname"%string]);
   entry h (lit "pve_rollback_lxc_snapshot")
        (lit "Rollback an LXC container to a previous snapshot state")
        full lxc destructive (shape ["node"%string; "vmid"%string; "snapname"%string])].

Definition registerLxcTools (h : Handlers) (server : McpServer)
           (config : AppConfig) : McpServer * list log_line :=
  register_each (lxc_tools h) server config.

(** The tools [registerStorageTools] registers, in order. *)
Definition storage_tools (h : Handlers) : list ToolRegistrationOptions :=
  [entry h (lit "pve_list_storage")
        (lit "List all configured storage backends in the cluster")
        read_only storage None (shape ["type"%string]);
   entry h (lit "pve_get_storage_config")
        (lit "Get the configuration of a specific storage backend")
        read_only storage None (shape ["storage"%string]);
   entry h (lit "pve_list_node_storage")
        (lit "List available storage on a specific node with usage information")
        read_only storage None (shape ["node"%string; "content"%string]);
   entry h (lit "pve_get_storage_status")
        (lit "Get the status and usage of a specific storage on a node")
        read_only storage None (shape ["node"%string; "storage"%string]);
   entry h (lit "pve_list_storage_content")
        (lit "List the content (disk images, ISOs, templates, backups) of a specific storage on a node")
        read_only storage None (shape ["node"%string; "storage"%string; "content"%string]);
   entry h (lit "pve_create_storage")
        (lit "Create a new storage backend in the cluster")
        full storage None (shape ["storage"%string; "type"%string; "content"%string; "path"%string; "server"%string; "export"%string; "vgname"%string; "pool"%string; "nodes"%string; "shared"%string]);
   entry h (lit "pve_update_storage")
        (lit "Update the configuration of an existing storage backend")
        full storage None (shape ["storage"%string; "content"%string; "nodes"%string; "shared"%string; "disable"%string]);
   entry h (lit "pve_delete_storage")
        (lit "Delete a storage backend configuration from the cluster")
        full storage destructive (shape ["storage"%string])].

Definition registerStorageTools (h : Handlers) (server : McpServer)
           (config : AppConfig) : McpServer * list log_line :=
  register_each (storage_tools h) server config.

(** The tools [registerClusterTools] registers, in order. *)
Definition cluster_tools (h : Handlers) : list ToolRegistrationOptions :=
  [entry h (lit "pve_get_cluster_status")
        (lit "Get the current cluster status including node membership and quorum")
        read_only cluster None None;
   entry h (lit "pve_list_cluster_resources")
        (lit "List all cluster resources (VMs, containers, storage, nodes) with optional type filter")
        read_only cluster None (shape ["type"%string]);
   entry h (lit "pve_get_next_vmid")
        (lit "Get the next available VMID in the cluster")
        read_only cluster None None;
   entry h (lit "pve_get_cluster_log")
        (lit "Get recent cluster log entries")
        read_only cluster None (shape ["max"%string]);
   entry h (lit "pve_get_cluster_options")
        (lit "Get cluster-wide datacenter options")
        read_only cluster None None;
   entry h (lit "pve_list_cluster_backup_info")
        (lit "List guests that are not covered by any backup job")
        read_only cluster None None;
   entry h (lit "pve_get_cluster_ha_status")
        (lit "Get the current HA manager status")
        read_only cluster None None;
   entry h (lit "pve_list_cluster_replication")
        (lit "List all replication jobs in the cluster")
        read_only cluster None None;
   entry h (lit "pve_update_cluster_options")
        (lit "Update cluster-wide datacenter options")
        full cluster None (shape ["keyboard"%string; "language"%string; "console"%string; "http_proxy"%string; "migration_unsecure"%string])].

Definition registerClusterTools (h : Handlers) (server : McpServer)
           (config : AppConfig) : McpServer * list log_line :=
  register_each (cluster_tools h) server config.

(** The tools [registerAccessTools] registers, in order. *)
Definition access_tools (h : Handlers) : list ToolRegistrationOptions :=
  [entry h (lit "pve_list_users")
        (lit "List all users in the PVE access control system")
        read_only access None (shape ["enabled"%string]);
   entry h (lit "pve_get_user")
        (lit "Get detailed information about a specific user")
        read_only access None (shape ["userid"%string]);
   entry h (lit "pve_list_roles")
        (lit "List all available roles and their privileges")
        read_only access None None;
   entry h (lit "pve_list_groups")
        (lit "List all user groups")
        read_only access None None;
   entry h (lit "pve_list_acls")
        (lit "List all access control list entries")
        read_only access None None;
   entry h (lit "pve_list_domains")
        (lit "List all authentication domains/realms (e.g. pam, pve, ldap, ad)")
        read_only access None None;
   entry h (lit "pve_create_user")
        (lit "Create a new user in the PVE access control system")
        full access None (shape ["userid"%string; "password"%string; "email"%string; "firstname"%string; "lastname"%string; "groups"%string; "comment"%string; "enable"%string; "expire"%string]);
   entry h (lit "pve_update_user")
        (lit "Update an existing user's properties")
        full access None (shape ["userid"%string; "email"%string; "firstname"%string; "lastname"%string; "groups"%string; "comment"%string; "enable"%string; "expire"%string]);
   entry h (lit "pve_delete_user")
        (lit "Delete a user from the PVE access control system")
        full access destructive (shape ["userid"%string]);
   entry h (lit "pve_update_acl")
        (lit "Update access control list " +++ [226%N] +++ [8364%N] +++ [8221%N] +++ lit " grant or revoke roles for users/groups on specific paths")
        full access None (shape ["path"%string; "roles"%string; "users"%string; "groups"%string; "propagate"%string; "delete"%string])].

Definition registerAccessTools (h : Handlers) (server : McpServer)
           (config : AppConfig) : McpServer * list log_line :=
  register_each (access_tools h) server config.

(** The tools [registerPoolTools] registers, in order. *)
Definition pools_tools (h : Handlers) : list ToolRegistrationOptions :=
  [entry h (lit "pve_list_pools")
        (lit "List all resource pools in the cluster")
        read_only pools None None;
   entry h (lit "pve_get_pool")
        (lit "Get detailed information about a resource pool including its members")
        read_only pools None (shape ["poolid"%string]);
   entry h (lit "pve_create_pool")
        (lit "Create a new resource pool")
        full pools None (shape ["poolid"%string; "comment"%string]);
   entry h (lit "pve_update_pool")
        (lit "Update a resource pool " +++ [8212%N] +++ lit " add or remove VMs/containers and storage from the pool")
        full pools None (shape ["poolid"%string; "comment"%string; "vms"%string; "storage"%string; "delete"%string]);
   entry h (lit "pve_delete_pool")
        (lit "Delete a resource pool (pool must be empty)")
        full pools destructive (shape ["poolid"%string])].

Definition registerPoolTools (h : Handlers) (server : McpServer)
           (config : AppConfig) : McpServer * list log_line :=
  register_each (pools_tools h) server config.

(** The tools [registerNetworkTools] registers, in order. *)
Definition network_tools (h : Handlers) : list ToolRegistrationOptions :=
  [entry h (lit "pve_list_networks")
        (lit "List all network interfaces on a specific node")
        read_only network None (shape ["node"%string; "type"%string]);
   entry h (lit "pve_get_network")
        (lit "Get the configuration of a specific network interface on a node")
        read_only network None (shape ["node"%string; "iface"%string]);
   entry h (lit "pve_create_network")
        (lit "Create a new network interface on a node")
        full network None (shape ["node"%string; "iface"%string; "type"%string; "address"%string; "netmask"%string; "gateway"%string; "bridge_ports"%string; "bridge_vlan_aware"%string; "autostart"%string; "comments"%string]);
   entry h (lit "pve_update_network")
        (lit "Update the configuration of a network interface on a node")
        full network None (shape ["node"%string; "iface"%string; "type"%string; "address"%string; "netmask"%string; "gateway"%string; "bridge_ports"%string; "bridge_vlan_aware"%string; "autostart"%string; "comments"%string]);
   entry h (lit "pve_delete_network")
        (lit "Delete a network interface configuration on a node")
        full network destructive (shape ["node"%string; "iface"%string])].

Definition registerNetworkTools (h : Handlers) (server : McpServer)
           (config : AppConfig) : McpServer * list log_line :=
  register_each (network_tools h) server config.

(** The tools [registerFirewallTools] registers, in order. *)
Definition firewall_tools (h : Handlers) : list ToolRegistrationOptions :=
  [entry h (lit "pve_get_firewall_options")
        (lit "Get the cluster-level firewall options")
        read_only firewall None None;
   entry h (lit "pve_list_firewall_rules")
        (lit "List all cluster-level firewall rules")
        read_only firewall None None;
   entry h (lit "pve_list_firewall_aliases")
        (lit "List all cluster-level firewall aliases (named IP/CIDR entries)")
        read_only firewall None None;
   entry h (lit "pve_list_firewall_ipsets")
        (lit "List all cluster-level firewall IP sets")
        read_only firewall None None;
   entry h (lit "pve_update_firewall_options")
        (lit "Update the cluster-level firewall options (e.g. enable/disable firewall)")
        full firewall None (shape ["enable"%string; "policy_in"%string; "policy_out"%string; "log_ratelimit"%string]);
   entry h (lit "pve_create_firewall_rule")
        (lit "Create a new cluster-level firewall rule")
        full firewall None (shape ["action"%string; "type"%string; "enable"%string; "source"%string; "dest"%string; "proto"%string; "dport"%string; "sport"%string; "comment"%string; "pos"%string]);
   entry h (lit "pve_update_firewall_rule")
        (lit "Update an existing cluster-level firewall rule by position")
        full firewall None (shape ["pos"%string; "action"%string; "enable"%string; "source"%string; "dest"%string; "proto"%string; "dport"%string; "sport"%string; "comment"%string]);
   entry h (lit "pve_delete_firewall_rule")
        (lit "Delete a cluster-level firewall rule by position")
        full firewall destructive (shape ["pos"%string])].

Definition registerFirewallTools (h : Handlers) (server : McpServer)
           (config : AppConfig) : McpServer * list log_line :=
  register_each (firewall_tools h) server config.

(** The tools [registerBackupTools] registers, in order. *)
Definition backup_tools (h : Handlers) : list ToolRegistrationOptions :=
  [entry h (lit "pve_list_backup_jobs")
        (lit "List all scheduled backup jobs in the cluster")
        read_only backup None None;
   entry h (lit "pve_get_backup_job")
        (lit "Get the configuration of a specific backup job")
        read_only backup None (shape ["id"%string]);
   entry h (lit "pve_run_backup")
        (lit "Run an immediate backup (vzdump) of one or more VMs/containers on a node")
        read_execute backup None (shape ["node"%string; "vmid"%string; "storage"%string; "mode"%string; "compress"%string; "mailnotification"%string; "mailto"%string]);
   entry h (lit "pve_create_backup_job")
        (lit "Create a new scheduled backup job")
        full backup None (shape ["vmid"%string; "storage"%string; "schedule"%string; "mode"%string; "compress"%string; "mailnotification"%string; "mailto"%string; "enabled"%string; "node"%string; "pool"%string; "maxfiles"%string]);
   entry h (lit "pve_delete_backup_job")
        (lit "Delete a scheduled backup job")
        full backup destructive (shape ["id"%string])].

Definition registerBackupTools (h : Handlers) (server : McpServer)
           (config : AppConfig) : McpServer * list log_line :=
  register_each (backup_tools h) server config.

(** The tools [registerTaskTools] registers, in order. *)
Definition tasks_tools (h : Handlers) : list ToolRegistrationOptions :=
  [entry h (lit "pve_list_tasks")
        (lit "List recent tasks on a node with optional filters for status, source, and VMID")
        read_only tasks None (shape ["node"%string; "start"%string; "limit"%string; "vmid"%string; "typefilter"%string]);
   entry h (lit "pve_get_task_status")
        (lit "Get the status of a specific task by its UPID")
        read_only tasks None (shape ["node"%string; "upid"%string]);
   entry h (lit "pve_get_task_log")
        (lit "Get the log output of a specific task by its UPID")
        read_only tasks None (shape ["node"%string; "upid"%string; "start"%string; "limit"%string]);
   entry h (lit "pve_stop_task")
        (lit "Stop a running task by its UPID")
        read_execute tasks None (shape ["node"%string; "upid"%string])].

Definition registerTaskTools (h : Handlers) (server : McpServer)
           (config : AppConfig) : McpServer * list log_line :=
  register_each (tasks_tools h) server config.

(** The tools [registerHaTools] registers, in order. *)
Definition ha_tools (h : Handlers) : list ToolRegistrationOptions :=
  [entry h (lit "pve_list_ha_resources")
        (lit "List all HA-managed resources in the cluster")
        read_only ha None (shape ["type"%string]);
   entry h (lit "pve_get_ha_resource")
        (lit "Get the HA configuration for a specific resource. SID format: type:vmid (e.g. vm:100)")
        read_only ha None (shape ["sid"%string]);
   entry h (lit "pve_create_ha_resource")
        (lit "Add a VM or container to HA management. SID format: type:vmid (e.g. vm:100)")
        full ha None (shape ["sid"%string; "group"%string; "max_relocate"%string; "max_restart"%string; "state"%string; "comment"%string]);
   entry h (lit "pve_update_ha_resource")
        (lit "Update the HA configuration for an existing managed resource")
        full ha None (shape ["sid"%string; "group"%string; "max_relocate"%string; "max_restart"%string; "state"%string; "comment"%string]);
   entry h (lit "pve_delete_ha_resource")
        (lit "Remove a VM or container from HA management (does not delete the VM/container itself)")
        full ha destructive (shape ["sid"%string])].

Definition registerHaTools (h : Handlers) (server : McpServer)
           (config : AppConfig) : McpServer * list log_line :=
  register_each (ha_tools h) server config.
(** [registerAllTools]: the twelve modules in the order of the barrel
    file. *)
Definition all_tools (h : Handlers) : list ToolRegistrationOptions :=
  nodes_tools h ++ qemu_tools h ++ lxc_tools h ++ storage_tools h ++
  cluster_tools h ++ access_tools h ++ pools_tools h ++ network_tools h ++
  firewall_tools h ++ backup_tools h ++ tasks_tools h ++ ha_tools h.

Definition then_register
           (step : McpServer -> AppConfig -> McpServer * list log_line)
           (config : AppConfig) (state : McpServer * list log_line)
  : McpServer * list log_line :=
  let r := step (fst state) config in
  (fst r, snd state ++ snd r).

Definition registerAllTools (h : Handlers) (server : McpServer)
           (config : AppConfig) : McpServer * list log_line :=
  let state := registerNodeTools h server config in
  let state := then_register (registerQemuTools h) config state in
  let state := then_register (registerLxcTools h) config state in
  let state := then_register (registerStorageTools h) config state in
  let state := then_register (registerClusterTools h) config state in
  let state := then_register (registerAccessTools h) config state in
  let state := then_register (registerPoolTools h) config state in
  let state := then_register (registerNetworkTools h) config state in
  let state := then_register (registerFirewallTools h) config state in
  let state := then_register (registerBackupTools h) config state in
  let state := then_register (registerTaskTools h) config state in
  then_register (registerHaTools h) config state.

End Catalog.

Import Catalog.

(* ===================================================================== *)
(** * Startup ([index.ts]) *)
(* ===================================================================== *)

Module Main.

(** What [main] has done when it reaches [startServer], or when the
    process exits before. *)
Record Startup : Type := {
  logged : list log_line;
  NODE_TLS_REJECT_UNAUTHORIZED : option jsstring;  (* what [main] assigns to it, if it does *)
  exit_code : option N;
  patterns : registry;          (* [SENSITIVE_PATTERNS] *)
  tools : McpServer
}.

Definition tls_warning : jsstring :=
  lit "TLS certificate verification disabled (PVE_VERIFY_SSL=false). " +++
  lit "This is insecure and should only be used with self-signed certificates.".

(** [main], up to the call of [startServer].  The handlers of the tools
    close over the client. *)
Definition main (env : Env) (w : World) (handlers : PveClient -> Handlers)
  : Startup :=
  match loadConfig env with
  | (lines, Rejected err) =>
      {| logged := lines ++ [(ERROR, message_or_string err)];
         NODE_TLS_REJECT_UNAUTHORIZED := None;
         exit_code := Some 1%N;
         patterns := SENSITIVE_PATTERNS;
         tools := [] |}
  | (lines, Resolved config) =>
      let tls := if negb (verifySsl config) then Some (lit "0") else None in
      let lines :=
        lines ++
        (if negb (verifySsl config) then [(WARN, tls_warning)] else []) in
      let created := createClient config SENSITIVE_PATTERNS in
      let reg := fst created in
      let client := snd created in
      match validateConnection reg w client with
      | (checked, Exit code) =>
          {| logged := lines ++ checked;
             NODE_TLS_REJECT_UNAUTHORIZED := tls;
             exit_code := Some code;
             patterns := reg;
             tools := [] |}
      | (checked, Proceed) =>
          let lines :=
            lines ++ checked ++
            [(INFO, lit "Access tier: " +++ AccessTier_name (accessTier config))]
          in
          let registered := registerAllTools (handlers client) [] config in
          {| logged := lines ++ snd registered;
             NODE_TLS_REJECT_UNAUTHORIZED := tls;
             exit_code := None;
             patterns := reg;
             tools := fst registered |}
      end
  end.

End Main.

Import Main.

(* ===================================================================== *)
(** * Notions used to state and prove the properties *)
(* ===================================================================== *)

(** ** Overlap of a text with an inserted text

    [overlap a b]: some non-empty suffix of [a] is a prefix of [b] or has
    [b] as a prefix.  [clash r s] says that [s] and [r] can share a code
    unit when laid over each other: [s] ends with a beginning of [r], [s]
    starts with an end of [r], or one occurs in the other. *)
Fixpoint overlap (a b : jsstring) : bool :=
  match a with
  | [] => false
  | _ :: a' => prefixb a b || prefixb b a || overlap a' b
  end.

Definition clash (r s : jsstring) : bool := overlap s r || overlap r s.

(** The three texts [sanitizeMessage] inserts. *)
Definition inserted_texts : list jsstring :=
  [REDACTED; token_redacted; auth_redacted].

Definition clash_free (s : jsstring) : bool :=
  forallb (fun r => negb (clash r s)) inserted_texts.

(** [splice r i o]: [o] is [i] with some pieces cut out and [r] put in the
    place of each. *)
Inductive splice (r : jsstring) : jsstring -> jsstring -> Prop :=
| splice_nil : splice r [] []
| splice_keep c i o : splice r i o -> splice r (c :: i) (c :: o)
| splice_cut d i o : splice r i o -> splice r (d ++ i) (r ++ o).

(** ** Acceptance by one of the two regular expressions *)

(** Where a greedy [\S+] stops: at the end or before white space. *)
Definition boundary (o : jsstring) : bool :=
  match o with [] => true | c :: _ => is_space c end.

(** The part of the expression after the keyword accepts [rest]. *)
Definition tail_accepts (g : bool) (rest : jsstring) : bool :=
  let ws := if g then take_while is_space rest else [] in
  match take_while non_space (skipn (length ws) rest) with
  | [] => false
  | _ :: _ => true
  end.

(** The expression accepts [s] from the point where [pat] of its keyword
    is still to be read. *)
Definition accepts_from (g : bool) (pat s : jsstring) : bool :=
  match ci_strip pat s with
  | Some rest => tail_accepts g rest
  | None => false
  end.

(** [pat] and [u] differ, case aside, at a position both have. *)
Fixpoint ci_mismatch (pat u : jsstring) : bool :=
  match pat, u with
  | p :: pat', c :: u' => negb (ci_eq p c) || ci_mismatch pat' u'
  | _, _ => false
  end.

Fixpoint nonempty_tails (l : jsstring) : list jsstring :=
  match l with
  | [] => []
  | _ :: l' => l :: nonempty_tails l'
  end.

Definition head_non_space (kw : jsstring) : bool :=
  match kw with
  | [] => false
  | k :: _ => negb (is_space (canonicalize k))
  end.

(** Every match of [rx] anywhere in [w] reads exactly [r]. *)
Fixpoint stable (rx : regex) (r w : jsstring) : Prop :=
  (forall n, regex_here rx w = Some n -> firstn n w = r) /\
  match w with
  | [] => True
  | _ :: w' => stable rx r w'
  end.

(** ** Reading a failure message *)

(** The message speaks of authentication, whatever the case. *)
Definition mentions_authentication (message : jsstring) : bool :=
  includes (map ascii_lower message) (lit "authenticat").

(** The result a wrapped executor gives for a failure with text [message]. *)
Definition failure_result (message : jsstring) : CallToolResult :=
  {| content := [{| type := lit "text"; content_text := message |}];
     isError := Some true |}.

(** The registry after a sequence of [registerSensitivePattern] calls. *)
Definition register_all (calls : list jsstring) (reg : registry) : registry :=
  fold_left (fun reg pattern => registerSensitivePattern pattern reg) calls reg.

(* ===================================================================== *)
(** * Concrete configurations, responses and tools *)
(* ===================================================================== *)

Module Examples.

Definition config : AppConfig :=
  {| baseUrl := lit "https://pve.example:8006";
     tokenId := lit "root@pam!mcp";
     tokenSecret := lit "5c1f7d2e-3b4a-4c6d-8e9f-0a1b2c3d4e5f";
     accessTier := full;
     categories := None;
     verifySsl := true;
     debug := false |}.

(** The registry and the client after [createClient(config)]. *)
Definition secrets : registry := fst (createClient config SENSITIVE_PATTERNS).
Definition client : PveClient := snd (createClient config SENSITIVE_PATTERNS).

Definition leaking_message : jsstring :=
  lit "GET /nodes failed: 5c1f7d2e-3b4a-4c6d-8e9f-0a1b2c3d4e5f rejected, Authorization: PVEAPIToken=root@pam!mcp=5c1f7d2e-3b4a-4c6d-8e9f-0a1b2c3d4e5f".

(** A registry whose only secret occurs in the redaction marker. *)
Definition marker_secret : jsstring := lit "E".
Definition marker_registry : registry :=
  registerSensitivePattern marker_secret SENSITIVE_PATTERNS.

(** Worlds in which [fetch] always answers, or always rejects, the same. *)
Definition answering (response : Response) : World :=
  {| fetch := fun _ _ => Resolved response;
     JSON_stringify := fun _ => lit "{}" |}.

Definition rejecting (err : thrown) : World :=
  {| fetch := fun _ _ => Rejected err;
     JSON_stringify := fun _ => lit "{}" |}.

Definition not_json : outcome value :=
  Rejected (OtherError (lit "SyntaxError") (lit "Unexpected end of JSON input")).

(** HTTP 403 with an empty body. *)
Definition forbidden : Response :=
  {| status := 403; statusText := lit "Forbidden";
     content_type := None; text := Resolved []; json := not_json |}.

(** HTTP 200 with the JSON body [null]. *)
Definition bare_null : Response :=
  {| status := 200; statusText := lit "OK";
     content_type := Some (lit "application/json");
     text := Resolved (lit "null"); json := Resolved VNull |}.

(** HTTP 200 with the JSON body [{"data": null, "extra": 1}]. *)
Definition null_envelope : Response :=
  {| status := 200; statusText := lit "OK";
     content_type := Some (lit "application/json;charset=UTF-8");
     text := Resolved [];
     json := Resolved (VObject [(lit "data", VNull);
                                (lit "extra", VNumber (lit "1"))]) |}.

(** A tool of the given tier and category with the given handler. *)
Definition tool (tier : AccessTier) (cat : ToolCategory)
           (h : value -> outcome jsstring) : ToolRegistrationOptions :=
  {| name := lit "pve_list_storage";
     description := lit "List storage";
     tool_accessTier := tier;
     category := cat;
     annotations := None;
     inputSchema := None;
     handler := h |}.

Definition storage_tool (h : value -> outcome jsstring)
  : ToolRegistrationOptions :=
  tool read_only storage h.

(** A process at the given tier with the given category list. *)
Definition process (tier : AccessTier) (allowed : option (list jsstring))
  : AppConfig :=
  {| baseUrl := baseUrl config; tokenId := tokenId config;
     tokenSecret := tokenSecret config; accessTier := tier;
     categories := allowed; verifySsl := true; debug := false |}.

Definition throws_error (_ : value) : outcome jsstring :=
  Rejected (OtherError (lit "Error") leaking_message).

Definition throws_string (_ : value) : outcome jsstring :=
  Rejected (NonError (VString leaking_message)).

(** A handler that calls the backend and lets a failure propagate. *)
Definition calls_backend (w : World) (_ : value) : outcome jsstring :=
  data <- get secrets w client (lit "/storage") ;;
  Resolved (JSON_stringify w data).

(** A configuration with an empty, non-null category list. *)
Definition empty_list_config : AppConfig := process full (Some []).

End Examples.

(* ===================================================================== *)
(** * Notions for the loader, the catalog of tools and startup *)
(* ===================================================================== *)

(** The text contains the word, whatever the case of its letters. *)
Definition mentions (message word : jsstring) : bool :=
  includes (map ascii_lower message) (map ascii_lower word).

Definition is_empty (s : jsstring) : bool :=
  match s with [] => true | _ :: _ => false end.

(** No rejection the platform produces is a [PveError]: the class belongs
    to this program. *)
Definition foreign {A : Type} (o : outcome A) : bool :=
  match o with
  | Rejected err => negb (instanceof_PveError err)
  | Resolved _ => true
  end.

Definition platform_errors_only (w : World) (url : jsstring)
           (init : RequestInit) : bool :=
  match fetch w url init with
  | Rejected err => negb (instanceof_PveError err)
  | Resolved response => foreign (json response) && foreign (text response)
  end.

(** The status line of a response. *)
Definition status_line (response : Response) : jsstring :=
  of_N (status response) +++ lit " " +++ statusText response.

(** The category list of the process as the specification speaks of it:
    [null] is how a configuration holds the empty list. *)
Definition category_list (config : AppConfig) : list jsstring :=
  match categories config with
  | Some allowed => allowed
  | None => []
  end.

(** The two tests of [registerTool] as one boolean. *)
Definition passes_with (tier : AccessTier) (allowed : option (list jsstring))
           (options : ToolRegistrationOptions) : bool :=
  negb (TIER_LEVELS tier <? TIER_LEVELS (tool_accessTier options))%N &&
  match allowed with
  | None => true
  | Some l => array_includes l (ToolCategory_name (category options))
  end.

Definition passes (config : AppConfig)
  : ToolRegistrationOptions -> bool :=
  passes_with (accessTier config) (categories config).

(** The tool [registerTool] hands to the server. *)
Definition registration (options : ToolRegistrationOptions) : RegisteredTool :=
  {| tool_name := name options;
     tool_config :=
       {| config_description := description options;
          config_inputSchema := inputSchema options;
          config_annotations := merge_annotations options |};
     callback := wrapped_executor options |}.

(** The value of a hint after the spread: the one the options write,
    [undefined] included, else the default. *)
Definition hint_or (a : option ToolAnnotations)
           (field : ToolAnnotations -> property bool) (default : bool)
  : option bool :=
  match a with
  | Some x =>
      match field x with
      | given v => v
      | omitted => Some default
      end
  | None => Some default
  end.

(** The last code unit of the text is a slash. *)
Definition ends_with_slash (s : jsstring) : bool :=
  match rev s with
  | c :: _ => is_slash c
  | [] => false
  end.

(** One entry of [PVE_CATEGORIES]: a category name between two runs of
    white space. *)
Definition padded (item : jsstring * ToolCategory * jsstring) : jsstring :=
  fst (fst item) +++ ToolCategory_name (snd (fst item)) +++ snd item.

Definition blank (s : jsstring) : bool := forallb is_space s.

(** The separator does not occur in the text. *)
Definition free_of (sep : JsString.char) (s : jsstring) : bool :=
  forallb (fun c => negb (N.eqb c sep)) s.

(** No text occurs twice in the list. *)
Fixpoint distinct (l : list jsstring) : bool :=
  match l with
  | [] => true
  | x :: l' => negb (array_includes l' x) && distinct l'
  end.

(** The options write a [destructiveHint] other than [false]. *)
Definition asks_destructive (options : ToolRegistrationOptions) : bool :=
  match hint_or (annotations options) own_destructiveHint false with
  | Some false => false
  | _ => true
  end.

Definition is_full (t : AccessTier) : bool :=
  match t with full => true | _ => false end.

Definition is_read_only (t : AccessTier) : bool :=
  match t with read_only => true | _ => false end.

Arguments registerAllTools : simpl never.
Arguments all_tools : simpl never.

(* ===================================================================== *)
(** * Further concrete data *)
(* ===================================================================== *)

Module Cases.

(** A message that shows a token parameter. *)
Definition token_message : jsstring :=
  lit "POST /x failed: sent PVEAPIToken=root@pam!mcp=abc to host".

(** A message with nothing to redact. *)
Definition clean_message : jsstring :=
  lit "GET /nodes failed: 500 Internal Server Error".

(** An environment with all variables but [DEBUG] set. *)
Definition environment : Env :=
  {| PVE_BASE_URL := Some (lit "https://pve.example:8006//");
     PVE_TOKEN_ID := Some (lit "root@pam!mcp");
     PVE_TOKEN_SECRET := Some (lit "5c1f7d2e-3b4a-4c6d-8e9f-0a1b2c3d4e5f");
     PVE_ACCESS_TIER := Some (lit "read-execute");
     PVE_CATEGORIES := Some (lit " qemu , lxc");
     PVE_VERIFY_SSL := Some (lit "false");
     env_DEBUG := None |}.

(** Environments that lack the credentials; the second has other
    values. *)
Definition bare_environment : Env :=
  {| PVE_BASE_URL := Some (lit "https://pve.example:8006");
     PVE_TOKEN_ID := None;
     PVE_TOKEN_SECRET := Some [];
     PVE_ACCESS_TIER := None;
     PVE_CATEGORIES := None;
     PVE_VERIFY_SSL := None;
     env_DEBUG := None |}.

Definition other_bare_environment : Env :=
  {| PVE_BASE_URL := Some (lit "https://10.0.0.2:8006");
     PVE_TOKEN_ID := Some [];
     PVE_TOKEN_SECRET := None;
     PVE_ACCESS_TIER := Some (lit "read-only");
     PVE_CATEGORIES := Some (lit "qemu");
     PVE_VERIFY_SSL := Some (lit "false");
     env_DEBUG := Some (lit "1") |}.

(** HTTP 200 with the JSON body
    [{"data": {"version": "8.2.4", "release": "8.2"}}]. *)
Definition version_answer : Response :=
  {| status := 200; statusText := lit "OK";
     content_type := Some (lit "application/json");
     text := Resolved [];
     json :=
       Resolved
         (VObject
            [(lit "data",
              VObject [(lit "version", VString (lit "8.2.4"));
                       (lit "release", VString (lit "8.2"))])]) |}.

(** Handlers that return the empty text. *)
Definition idle : Handlers := fun _ _ => Resolved [].

(** HTTP 500 and HTTP 200 whose bodies are still being read when the
    timer of the request fires. *)
Definition stalled_failure : Response :=
  {| status := 500; statusText := lit "Internal Server Error";
     content_type := Some (lit "application/json");
     text := Rejected timeout_rejection;
     json := Rejected timeout_rejection |}.

Definition stalled_answer : Response :=
  {| status := 200; statusText := lit "OK";
     content_type := Some (lit "application/json");
     text := Rejected timeout_rejection;
     json := Rejected timeout_rejection |}.

(** HTTP 200 with a plain text body that shows the token secret. *)
Definition secret_page : Response :=
  {| status := 200; statusText := lit "OK";
     content_type := Some (lit "text/plain");
     text := Resolved (lit "token 5c1f7d2e-3b4a-4c6d-8e9f-0a1b2c3d4e5f is valid");
     json := Examples.not_json |}.

(** HTTP 200 with the JSON body
    [{"data": {"secret": "5c1f7d2e-3b4a-4c6d-8e9f-0a1b2c3d4e5f"}}]. *)
Definition secret_envelope : Response :=
  {| status := 200; statusText := lit "OK";
     content_type := Some (lit "application/json");
     text := Resolved [];
     json :=
       Resolved
         (VObject
            [(lit "data",
              VObject
                [(lit "secret",
                  VString (lit "5c1f7d2e-3b4a-4c6d-8e9f-0a1b2c3d4e5f"))])]) |}.

(** HTTP 400 with the JSON body
    [{"errors": {"vmid": "invalid format", "node": "no such node"}}], and
    with [{"errors": {"vmid": {"toString": 1}}}]. *)
Definition bad_parameters : Response :=
  {| status := 400; statusText := lit "Bad Request";
     content_type := Some (lit "application/json");
     text := Resolved [];
     json :=
       Resolved
         (VObject
            [(lit "errors",
              VObject [(lit "vmid", VString (lit "invalid format"));
                       (lit "node", VString (lit "no such node"))])]) |}.

Definition odd_errors : Response :=
  {| status := 400; statusText := lit "Bad Request";
     content_type := Some (lit "application/json");
     text := Resolved [];
     json :=
       Resolved
         (VObject
            [(lit "errors",
              VObject
                [(lit "vmid",
                  VObject [(lit "toString", VNumber (lit "1"))])])]) |}.

(** A tool whose options write [annotations: { destructiveHint:
    undefined }]. *)
Definition unhinted_tool : ToolRegistrationOptions :=
  {| name := lit "pve_delete_storage";
     description := lit "Delete a storage configuration";
     tool_accessTier := full;
     category := storage;
     annotations :=
       Some {| own_title := omitted; own_readOnlyHint := omitted;
               own_destructiveHint := given None;
               own_idempotentHint := omitted;
               own_openWorldHint := omitted |};
     inputSchema := None;
     handler := Examples.throws_error |}.

(** Two entries of [PVE_CATEGORIES] with white space around them. *)
Definition category_entries : list (jsstring * ToolCategory * jsstring) :=
  [([32%N], qemu, []); ([], lxc, [9%N; 32%N])].

End Cases.

(* ===================================================================== *)
(** * Strings, replacement walks and the sanitizer: supporting facts *)
(* ===================================================================== *)

Section Strings.

Lemma length_ind (P : jsstring -> Prop) :
  (forall s, (forall t, length t < length s -> P t) -> P s) ->
  forall s, P s.
Proof.
  intros step s.
  assert (H : forall n t, length t < n -> P t).
  { induction n as [|n IH]; intros t Ht; [lia|].
    apply step. intros u Hu. apply IH. lia. }
  apply (H (S (length s))). lia.
Qed.

Lemma prefixb_nil_r p : prefixb p [] = true -> p = [].
Proof. destruct p; simpl; congruence. Qed.

(** A prefix of [r ++ o] is a prefix of [r], or has [r] as a prefix. *)
Lemma prefixb_app_cases t r o :
  prefixb t (r ++ o) = true -> prefixb t r = true \/ prefixb r t = true.
Proof.
  revert r. induction t as [|x t IH]; intros r H; [left; reflexivity|].
  destruct r as [|y r]; [right; reflexivity|].
  simpl in *. apply andb_true_iff in H as [Hxy H].
  rewrite Hxy. apply N.eqb_eq in Hxy. subst y. rewrite N.eqb_refl. simpl.
  apply IH in H. exact H.
Qed.

Lemma includes_cons c s p :
  includes (c :: s) p = prefixb p (c :: s) || includes s p.
Proof. reflexivity. Qed.

Lemma includes_app_r d s p : includes s p = true -> includes (d ++ s) p = true.
Proof.
  induction d as [|c d IH]; intros H; [exact H|].
  simpl app. rewrite includes_cons, (IH H). apply orb_true_r.
Qed.

Lemma overlap_cons c a b :
  overlap (c :: a) b = prefixb (c :: a) b || prefixb b (c :: a) || overlap a b.
Proof. reflexivity. Qed.

Lemma overlap_cons_false c a b :
  overlap (c :: a) b = false ->
  prefixb (c :: a) b = false /\ prefixb b (c :: a) = false /\ overlap a b = false.
Proof.
  rewrite overlap_cons. intros H.
  apply orb_false_iff in H as [H ?]. apply orb_false_iff in H as [? ?]. auto.
Qed.

(** An occurrence of [p] in [r ++ o] starts inside [r] or lies in [o]. *)
Lemma includes_app_cases r o p :
  includes (r ++ o) p = true -> overlap r p = true \/ includes o p = true.
Proof.
  induction r as [|c r IH]; intros H; [right; exact H|].
  simpl app in H. rewrite includes_cons in H.
  apply orb_true_iff in H as [H|H].
  - left. change (c :: r ++ o) with ((c :: r) ++ o) in H.
    apply prefixb_app_cases in H. rewrite overlap_cons.
    destruct H as [H|H]; rewrite H; rewrite ?orb_true_r; reflexivity.
  - destruct (IH H) as [H'|H']; [left|right; exact H'].
    rewrite overlap_cons, H'. apply orb_true_r.
Qed.

End Strings.

Section Splice.

Variable r : jsstring.

(** A piece that cannot overlap [r] and starts the output starts the input. *)
Lemma splice_prefix i o :
  splice r i o ->
  forall t, overlap t r = false -> prefixb t o = true -> prefixb t i = true.
Proof.
  induction 1 as [|c i o _ IH|d i o _ IH]; intros t Hov Hp.
  - apply prefixb_nil_r in Hp. subst t. reflexivity.
  - destruct t as [|x t]; [reflexivity|].
    apply overlap_cons_false in Hov as (_ & _ & Hov).
    simpl in *. apply andb_true_iff in Hp as [-> Hp]. simpl. eauto.
  - destruct t as [|x t]; [reflexivity|].
    apply overlap_cons_false in Hov as (H1 & H2 & _).
    apply prefixb_app_cases in Hp. destruct Hp; congruence.
Qed.

(** A text that cannot overlap [r] and occurs in the output occurs in the
    input. *)
Lemma splice_includes i o :
  splice r i o ->
  forall s, clash r s = false -> includes o s = true -> includes i s = true.
Proof.
  induction 1 as [|c i o Hs IH|d i o Hs IH]; intros s Hc Hi.
  - exact Hi.
  - pose proof Hc as Hc'. apply orb_false_iff in Hc' as [Hsr Hrs].
    rewrite includes_cons in *. apply orb_true_iff in Hi as [Hi|Hi].
    + assert (Hk : splice r (c :: i) (c :: o)) by (constructor; exact Hs).
      rewrite (splice_prefix Hk _ Hsr Hi). reflexivity.
    + rewrite (IH _ Hc Hi). apply orb_true_r.
  - pose proof Hc as Hc'. apply orb_false_iff in Hc' as [Hsr Hrs].
    apply includes_app_cases in Hi. destruct Hi as [Hi|Hi]; [congruence|].
    apply includes_app_r. eauto.
Qed.

End Splice.

Section Scan.

Variable match_here : jsstring -> option nat.
Variable r : jsstring.
Hypothesis match_bound : forall s n, match_here s = Some n -> n <= length s.

Lemma scan_skip k s :
  k <= length s ->
  replace_scan match_here r k s = replace_scan match_here r 0 (skipn k s).
Proof.
  revert k. induction s as [|c s IH]; intros [|k] Hk; try reflexivity.
  - simpl in Hk. lia.
  - simpl in Hk. simpl. apply IH. lia.
Qed.

Lemma scan_cons c s :
  replace_scan match_here r 0 (c :: s) =
  match match_here (c :: s) with
  | Some O => r ++ c :: replace_scan match_here r 0 s
  | Some (S n) => r ++ replace_scan match_here r 0 (skipn n s)
  | None => c :: replace_scan match_here r 0 s
  end.
Proof.
  simpl. destruct (match_here (c :: s)) as [[|n]|] eqn:E; try reflexivity.
  rewrite scan_skip; [reflexivity|].
  apply match_bound in E. simpl in E. lia.
Qed.

Lemma scan_splice s : splice r s (replace_scan match_here r 0 s).
Proof.
  induction s as [s IH] using length_ind.
  destruct s as [|c s].
  - simpl. destruct (match_here []); [|constructor].
    assert (H : splice r ([] ++ []) (r ++ [])) by (apply splice_cut; constructor).
    rewrite (app_nil_r r) in H. exact H.
  - rewrite scan_cons. destruct (match_here (c :: s)) as [[|n]|] eqn:E.
    + apply splice_cut with (d := []). constructor. apply IH. simpl. lia.
    + rewrite <- (firstn_skipn n s) at 1.
      apply splice_cut with (d := c :: firstn n s). apply IH.
      rewrite length_skipn. simpl. lia.
    + constructor. apply IH. simpl. lia.
Qed.

End Scan.

Section Matchers.

Lemma prefixb_length p s : prefixb p s = true -> length p <= length s.
Proof.
  revert s. induction p as [|x p IH]; intros [|y s]; simpl; try lia; try congruence.
  intros H. apply andb_true_iff in H as [_ H]. apply IH in H. lia.
Qed.

Lemma literal_here_bound p s n : literal_here p s = Some n -> n <= length s.
Proof.
  unfold literal_here. destruct (prefixb p s) eqn:E; [|discriminate].
  intros [= <-]. apply prefixb_length, E.
Qed.

Lemma ci_strip_length kw s rest :
  ci_strip kw s = Some rest -> length s = length kw + length rest.
Proof.
  revert s. induction kw as [|k kw IH]; intros s H; simpl in *.
  - injection H as ->. reflexivity.
  - destruct s as [|c s]; [discriminate|]. destruct (ci_eq k c); [|discriminate].
    simpl. rewrite (IH _ H). reflexivity.
Qed.

Lemma ci_strip_skipn kw s rest :
  ci_strip kw s = Some rest -> skipn (length kw) s = rest.
Proof.
  revert s. induction kw as [|k kw IH]; intros s H; simpl in *.
  - injection H as ->. reflexivity.
  - destruct s as [|c s]; [discriminate|]. destruct (ci_eq k c); [|discriminate].
    apply IH, H.
Qed.

Lemma take_while_length f s : length (take_while f s) <= length s.
Proof. induction s as [|c s IH]; simpl; [lia|]. destruct (f c); simpl; lia. Qed.

Lemma skipn_take_while f s : skipn (length (take_while f s)) s = drop_while f s.
Proof. induction s as [|c s IH]; simpl; [reflexivity|]. destruct (f c); simpl; auto. Qed.

Lemma regex_here_bound rx s n : regex_here rx s = Some n -> n <= length s.
Proof.
  unfold regex_here. destruct (ci_strip (keyword rx) s) as [rest|] eqn:E; [|discriminate].
  apply ci_strip_length in E.
  set (ws := if gap rx then take_while is_space rest else []).
  assert (Hws : length ws <= length rest).
  { subst ws. destruct (gap rx); [apply take_while_length|simpl; lia]. }
  pose proof (take_while_length non_space (skipn (length ws) rest)) as Hb.
  rewrite length_skipn in Hb.
  destruct (take_while non_space (skipn (length ws) rest)) eqn:Eb;
    [discriminate|].
  intros [= <-]. simpl in *. lia.
Qed.

Lemma regex_here_pos rx s : regex_here rx s <> Some 0.
Proof.
  unfold regex_here. destruct (ci_strip (keyword rx) s) as [rest|]; [|discriminate].
  destruct (take_while non_space _); [discriminate|].
  simpl. intros [= H]. lia.
Qed.

Lemma replaceAll_splice s p r : splice r s (replaceAll s p r).
Proof. apply scan_splice, literal_here_bound. Qed.

Lemma replace_regex_splice s rx r : splice r s (replace_regex s rx r).
Proof. apply scan_splice, regex_here_bound. Qed.

End Matchers.

Section LiteralPass.

Variable r : jsstring.

(** After [replaceAll] no occurrence of the pattern is left, when the
    pattern cannot overlap the replacement. *)
Lemma replaceAll_removes p s :
  p <> [] -> clash r p = false -> includes (replaceAll s p r) p = false.
Proof.
  intros Hp Hc. pose proof Hc as Hc'. apply orb_false_iff in Hc' as [Hpr Hrp].
  unfold replaceAll.
  induction s as [s IH] using length_ind.
  destruct s as [|c s].
  - simpl. unfold literal_here. destruct p; [congruence|]. reflexivity.
  - rewrite scan_cons by apply literal_here_bound.
    unfold literal_here at 1. destruct (prefixb p (c :: s)) eqn:E.
    + destruct p as [|x p]; [congruence|]. simpl length.
      match goal with |- ?g = false => destruct g eqn:Hi; [|reflexivity] end.
      apply includes_app_cases in Hi. destruct Hi as [Hi|Hi]; [congruence|].
      rewrite IH in Hi; [discriminate|].
      rewrite length_skipn. simpl. lia.
    + rewrite includes_cons. apply orb_false_iff. split.
      * match goal with |- ?g = false => destruct g eqn:Hi; [|reflexivity] end.
        assert (Hk : splice r (c :: s) (c :: replace_scan (literal_here p) r 0 s)).
        { constructor. apply scan_splice, literal_here_bound. }
        rewrite (splice_prefix Hk _ Hpr Hi) in E. discriminate.
      * apply IH. simpl. lia.
Qed.

(** Where the pattern does not occur, [replaceAll] changes nothing. *)
Lemma replaceAll_absent p s :
  p <> [] -> includes s p = false -> replaceAll s p r = s.
Proof.
  intros Hp. unfold replaceAll. induction s as [|c s IH]; intros Hi.
  - simpl. unfold literal_here. destruct p; [congruence|]. reflexivity.
  - rewrite includes_cons in Hi. apply orb_false_iff in Hi as [H1 H2].
    simpl. unfold literal_here at 1. rewrite H1. f_equal. apply IH, H2.
Qed.

End LiteralPass.

Section Sanitize.

Lemma splice_absent r i o s :
  splice r i o -> clash r s = false -> includes i s = false -> includes o s = false.
Proof.
  intros Hs Hc Hi. destruct (includes o s) eqn:E; [|reflexivity].
  rewrite (splice_includes Hs _ Hc E) in Hi. discriminate.
Qed.

Lemma redact_patterns_keeps_absent reg m s :
  clash REDACTED s = false ->
  includes m s = false -> includes (redact_patterns reg m) s = false.
Proof.
  intros Hc. unfold redact_patterns. revert m.
  induction reg as [|p reg IH]; intros m Hm; [exact Hm|].
  simpl. apply IH. eapply splice_absent; eauto. apply replaceAll_splice.
Qed.

Lemma redact_patterns_removes reg m s :
  In s reg -> s <> [] -> clash REDACTED s = false ->
  includes (redact_patterns reg m) s = false.
Proof.
  intros Hin Hne Hc. unfold redact_patterns. revert m.
  induction reg as [|p reg IH]; intros m; [contradiction|].
  simpl. destruct Hin as [->|Hin]; [|auto].
  apply (@redact_patterns_keeps_absent reg _ s Hc).
  apply replaceAll_removes; assumption.
Qed.

Lemma clash_free_spec s :
  clash_free s = true ->
  clash REDACTED s = false /\ clash token_redacted s = false /\
  clash auth_redacted s = false.
Proof.
  unfold clash_free, inserted_texts. simpl forallb. intros H.
  apply andb_true_iff in H as [H1 H]. apply andb_true_iff in H as [H2 H].
  apply andb_true_iff in H as [H3 _].
  apply negb_true_iff in H1, H2, H3. auto.
Qed.

Lemma clash_free_nonempty s : clash_free s = true -> s <> [].
Proof. intros H ->. discriminate H. Qed.

Lemma sanitize_removes reg m s :
  In s reg -> clash_free s = true ->
  includes (sanitizeMessage reg m) s = false.
Proof.
  intros Hin Hcf. pose proof (@clash_free_nonempty s Hcf) as Hne.
  apply clash_free_spec in Hcf as (H1 & H2 & H3).
  unfold sanitizeMessage.
  eapply splice_absent; [apply replace_regex_splice|exact H3|].
  eapply splice_absent; [apply replace_regex_splice|exact H2|].
  apply redact_patterns_removes; assumption.
Qed.

End Sanitize.

Section Acceptance.

Lemma regex_here_accepts rx s :
  accepts_from (gap rx) (keyword rx) s =
  match regex_here rx s with Some _ => true | None => false end.
Proof.
  unfold accepts_from, regex_here, tail_accepts.
  destruct (ci_strip (keyword rx) s) as [rest|]; [|reflexivity].
  destruct (take_while non_space _); reflexivity.
Qed.

Lemma accepts_from_nil g s : accepts_from g [] s = tail_accepts g s.
Proof. reflexivity. Qed.

Lemma accepts_from_cons g k pat c s :
  accepts_from g (k :: pat) (c :: s) = ci_eq k c && accepts_from g pat s.
Proof. unfold accepts_from. simpl. destruct (ci_eq k c); reflexivity. Qed.

Lemma tail_accepts_cons g c x :
  tail_accepts g (c :: x) = if is_space c then g && tail_accepts g x else true.
Proof.
  unfold tail_accepts, non_space. destruct g; simpl.
  - destruct (is_space c) eqn:E; simpl; [reflexivity|]. rewrite E. reflexivity.
  - destruct (is_space c); reflexivity.
Qed.

Lemma ci_mismatch_strip pat u z :
  ci_mismatch pat u = true -> ci_strip pat (u ++ z) = None.
Proof.
  revert u. induction pat as [|p pat IH]; intros [|c u] H; simpl in *;
    try discriminate.
  destruct (ci_eq p c); [|reflexivity]. apply IH, H.
Qed.

Lemma ci_mismatch_here rx u z :
  ci_mismatch (keyword rx) u = true -> regex_here rx (u ++ z) = None.
Proof.
  intros H. unfold regex_here. rewrite (ci_mismatch_strip _ _ z H). reflexivity.
Qed.

Lemma is_space_canonical c : is_space c = true -> canonicalize c = c.
Proof.
  unfold is_space. simpl. intros H.
  repeat (apply orb_true_iff in H;
          destruct H as [H|H]; [apply N.eqb_eq in H; subst c; reflexivity|]).
  discriminate.
Qed.

Lemma ci_eq_non_space k c :
  is_space (canonicalize k) = false -> ci_eq k c = true -> is_space c = false.
Proof.
  unfold ci_eq. intros Hk H. apply N.eqb_eq in H.
  destruct (is_space c) eqn:E; [|reflexivity].
  rewrite (is_space_canonical _ E) in H. congruence.
Qed.

Lemma drop_while_boundary s : boundary (drop_while non_space s) = true.
Proof.
  induction s as [|c s IH]; simpl; [reflexivity|].
  unfold non_space at 1. destruct (is_space c) eqn:E; simpl; auto.
Qed.

(** A match ends at the end of the subject or before white space. *)
Lemma regex_here_boundary rx s n :
  regex_here rx s = Some n -> boundary (skipn n s) = true.
Proof.
  unfold regex_here.
  destruct (ci_strip (keyword rx) s) as [rest|] eqn:E; [|discriminate].
  apply ci_strip_skipn in E.
  set (ws := if gap rx then take_while is_space rest else []).
  remember (take_while non_space (skipn (length ws) rest)) as body eqn:Eb.
  intros H.
  assert (Hn : n = length (keyword rx) + (length ws + length body)).
  { destruct body; [discriminate|]. injection H as <-. simpl. lia. }
  subst n body.
  rewrite Nat.add_comm, <- skipn_skipn, E.
  rewrite Nat.add_comm, <- skipn_skipn, skipn_take_while.
  apply drop_while_boundary.
Qed.

Lemma head_non_space_cons kw :
  head_non_space kw = true ->
  exists k kw', kw = k :: kw' /\ is_space (canonicalize k) = false.
Proof.
  destruct kw as [|k kw']; simpl; [discriminate|].
  intros H. apply negb_true_iff in H. eauto.
Qed.

Lemma regex_here_head rx c s n :
  head_non_space (keyword rx) = true ->
  regex_here rx (c :: s) = Some n -> is_space c = false.
Proof.
  intros Hh. apply head_non_space_cons in Hh as (k & kw' & Hkw & Hk).
  unfold regex_here. rewrite Hkw. simpl.
  destruct (ci_eq k c) eqn:E; [|discriminate].
  intros _. eapply ci_eq_non_space; eauto.
Qed.

Lemma regex_here_nil rx :
  head_non_space (keyword rx) = true -> regex_here rx [] = None.
Proof.
  intros Hh. apply head_non_space_cons in Hh as (k & kw' & Hkw & Hk).
  unfold regex_here. rewrite Hkw. reflexivity.
Qed.

Lemma regex_here_space rx c s :
  head_non_space (keyword rx) = true ->
  is_space c = true -> regex_here rx (c :: s) = None.
Proof.
  intros Hh Hc. destruct (regex_here rx (c :: s)) eqn:E; [|reflexivity].
  apply regex_here_head in E; congruence.
Qed.

Lemma nonempty_tails_tl p pat kw :
  In (p :: pat) (nonempty_tails kw) -> pat = [] \/ In pat (nonempty_tails kw).
Proof.
  induction kw as [|k kw IH]; simpl; [tauto|].
  intros [H|H].
  - injection H as Hk Hkw. subst k kw.
    destruct pat as [|q pat]; [left; reflexivity|].
    right. right. left. reflexivity.
  - destruct (IH H); auto.
Qed.

End Acceptance.

Section Stable.

Variables (rx : regex) (r : jsstring).

Lemma stable_tl c w : stable rx r (c :: w) -> stable rx r w.
Proof. intros [_ H]. exact H. Qed.

Lemma stable_skipn k w : stable rx r w -> stable rx r (skipn k w).
Proof.
  revert w. induction k as [|k IH]; intros w H; [exact H|].
  destruct w as [|c w]; [exact H|]. simpl. apply IH, (stable_tl H).
Qed.

Lemma stable_nil : head_non_space (keyword rx) = true -> stable rx r [].
Proof.
  intros Hh. split; [|exact I]. intros n H.
  rewrite (regex_here_nil _ Hh) in H. discriminate.
Qed.

(** A subject in which every match already reads [r] is left as it is. *)
Lemma stable_fixed w : stable rx r w -> replace_regex w rx r = w.
Proof.
  unfold replace_regex. induction w as [w IH] using length_ind. intros Hst.
  destruct w as [|c w].
  - simpl. destruct (regex_here rx []) as [n|] eqn:E; [|reflexivity].
    destruct Hst as [H _]. specialize (H _ E). destruct n; simpl in H; auto.
  - rewrite scan_cons by apply regex_here_bound.
    destruct (regex_here rx (c :: w)) as [[|n]|] eqn:E.
    + exfalso. exact (regex_here_pos _ _ E).
    + destruct Hst as [H Hst]. specialize (H _ E).
      rewrite IH.
      * rewrite <- H. simpl. f_equal. apply firstn_skipn.
      * rewrite length_skipn. simpl. lia.
      * apply stable_skipn, Hst.
    + f_equal. apply IH; [simpl; lia|]. apply (stable_tl Hst).
Qed.

(** No match starts inside [u] when the keyword fails on each of its
    tails. *)
Lemma stable_app u o :
  forallb (ci_mismatch (keyword rx)) (nonempty_tails u) = true ->
  stable rx r o -> stable rx r (u ++ o).
Proof.
  induction u as [|c u IH]; intros Hu Ho; [exact Ho|].
  simpl in Hu. apply andb_true_iff in Hu as [Hc Hu].
  split; [|apply IH; assumption].
  intros n H. change (c :: u ++ o) with ((c :: u) ++ o) in H.
  rewrite ci_mismatch_here in H by exact Hc. discriminate.
Qed.

End Stable.

Lemma firstn_length_app (l o : jsstring) : firstn (length l) (l ++ o) = l.
Proof. induction l as [|x l IH]; simpl; [reflexivity|]. f_equal. exact IH. Qed.

Lemma stable_replacement_intro rx r o :
  regex_here rx (r ++ o) = Some (length r) ->
  forallb (ci_mismatch (keyword rx)) (tl (nonempty_tails r)) = true ->
  stable rx r o -> stable rx r (r ++ o).
Proof.
  intros Hm Hin Ho. destruct r as [|c u].
  - exfalso. exact (regex_here_pos _ _ Hm).
  - split.
    + intros n Hn. change (c :: u ++ o) with ((c :: u) ++ o) in Hn.
      rewrite Hm in Hn. injection Hn as <-.
      apply (firstn_length_app (c :: u) o).
    + apply stable_app; assumption.
Qed.

Section PullBack.

(** The scanning expression and its replacement. *)
Variables (rx : regex) (r : jsstring).
(** The expression whose acceptance is observed. *)
Variables (g : bool) (kw : jsstring).

Hypothesis head_ok : head_non_space (keyword rx) = true.
Hypothesis proper_tails :
  forallb (fun pat => ci_mismatch pat r) (tl (nonempty_tails kw)) = true.
Hypothesis whole :
  ci_mismatch kw r = true \/ (kw = keyword rx /\ g = gap rx).

Lemma nonempty_tails_cases pat :
  In pat (nonempty_tails kw) -> pat = kw \/ In pat (tl (nonempty_tails kw)).
Proof. destruct kw; simpl; [tauto|]. intros [H|H]; auto. Qed.

(** What the observed expression accepts after the replacement, from any
    point of its keyword on, it accepted before. *)
Lemma accepts_pullback y :
  forall pat, pat = [] \/ In pat (nonempty_tails kw) ->
  accepts_from g pat (replace_regex y rx r) = true ->
  accepts_from g pat y = true.
Proof.
  unfold replace_regex. induction y as [y IH] using length_ind.
  intros pat Hpat Ha. destruct y as [|c y].
  - simpl in Ha. rewrite (regex_here_nil _ head_ok) in Ha. exact Ha.
  - rewrite scan_cons in Ha by apply regex_here_bound.
    destruct (regex_here rx (c :: y)) as [[|n]|] eqn:E.
    + exfalso. exact (regex_here_pos _ _ E).
    + destruct pat as [|p pat].
      * rewrite accepts_from_nil, tail_accepts_cons.
        rewrite (regex_here_head _ _ _ head_ok E). reflexivity.
      * destruct Hpat as [Hpat|Hpat]; [discriminate|].
        assert (Hmis : ci_mismatch (p :: pat) r = true ->
                       accepts_from g (p :: pat) (c :: y) = true).
        { intros Hm. unfold accepts_from in Ha.
          rewrite (ci_mismatch_strip _ _ _ Hm) in Ha. discriminate. }
        apply nonempty_tails_cases in Hpat. destruct Hpat as [Hpat|Hpat].
        -- destruct whole as [Hm|[Hk Hg]]; [apply Hmis; rewrite Hpat; exact Hm|].
           rewrite Hpat, Hk, Hg, regex_here_accepts, E. reflexivity.
        -- apply Hmis. rewrite forallb_forall in proper_tails.
           apply (proper_tails _ Hpat).
    + destruct pat as [|p pat].
      * rewrite accepts_from_nil, tail_accepts_cons in *.
        destruct (is_space c); [|reflexivity].
        apply andb_true_iff in Ha as [-> Ha]. simpl.
        rewrite <- accepts_from_nil. apply IH; [simpl; lia|left; reflexivity|].
        exact Ha.
      * rewrite accepts_from_cons in *. apply andb_true_iff in Ha as [-> Ha].
        simpl. apply IH; [simpl; lia| |exact Ha].
        destruct Hpat as [Hpat|Hpat]; [discriminate|].
        eapply nonempty_tails_tl; eauto.
Qed.

Lemma replace_boundary y :
  boundary y = true -> boundary (replace_regex y rx r) = true.
Proof.
  unfold replace_regex. destruct y as [|c y]; simpl; intros H.
  - rewrite (regex_here_nil _ head_ok). reflexivity.
  - rewrite (regex_here_space _ _ y head_ok H). exact H.
Qed.

End PullBack.

Section SelfStable.

Variables (rx : regex) (r : jsstring).

Hypothesis head_ok : head_non_space (keyword rx) = true.
Hypothesis proper_tails :
  forallb (fun pat => ci_mismatch pat r) (tl (nonempty_tails (keyword rx)))
  = true.
Hypothesis inner_tails :
  forallb (ci_mismatch (keyword rx)) (tl (nonempty_tails r)) = true.
Hypothesis self_match :
  forall o, boundary o = true -> regex_here rx (r ++ o) = Some (length r).

Lemma stable_replacement o :
  boundary o = true -> stable rx r o -> stable rx r (r ++ o).
Proof.
  intros Hb Ho. apply stable_replacement_intro; auto.
Qed.

(** After the replacement every match reads [r]. *)
Lemma replace_stable y : stable rx r (replace_regex y rx r).
Proof.
  unfold replace_regex. induction y as [y IH] using length_ind.
  destruct y as [|c y].
  - simpl. rewrite (regex_here_nil _ head_ok). apply stable_nil, head_ok.
  - rewrite scan_cons by apply regex_here_bound.
    destruct (regex_here rx (c :: y)) as [[|n]|] eqn:E.
    + exfalso. exact (regex_here_pos _ _ E).
    + apply stable_replacement.
      * apply replace_boundary; [exact head_ok|].
        apply (regex_here_boundary _ _ E).
      * apply IH. rewrite length_skipn. simpl. lia.
    + split; [|apply IH; simpl; lia].
      intros n Hn. exfalso.
      assert (Ha : accepts_from (gap rx) (keyword rx) (c :: y) = true).
      { apply accepts_pullback with (rx := rx) (r := r) (kw := keyword rx).
        - exact head_ok.
        - exact proper_tails.
        - right. split; reflexivity.
        - right. destruct (keyword rx); [discriminate|]. left. reflexivity.
        - unfold replace_regex. rewrite scan_cons by apply regex_here_bound.
          rewrite E, regex_here_accepts, Hn. reflexivity. }
      rewrite regex_here_accepts, E in Ha. discriminate.
Qed.

End SelfStable.

Section CrossStable.

(** The expression whose matches all read [r1] already. *)
Variables (rx1 : regex) (r1 : jsstring).
(** The expression that is replaced by [r2]. *)
Variables (rx2 : regex) (r2 : jsstring).

Hypothesis head_ok : head_non_space (keyword rx2) = true.
Hypothesis proper_tails :
  forallb (fun pat => ci_mismatch pat r2) (tl (nonempty_tails (keyword rx1)))
  = true.
Hypothesis none_in_r2 :
  forallb (ci_mismatch (keyword rx1)) (nonempty_tails r2) = true.
Hypothesis none_in_r1 :
  forallb (ci_mismatch (keyword rx2)) (nonempty_tails r1) = true.
Hypothesis self_match :
  forall o, boundary o = true -> regex_here rx1 (r1 ++ o) = Some (length r1).

Lemma replace_through u x :
  forallb (ci_mismatch (keyword rx2)) (nonempty_tails u) = true ->
  replace_regex (u ++ x) rx2 r2 = u ++ replace_regex x rx2 r2.
Proof.
  unfold replace_regex. induction u as [|c u IH]; intros Hu; [reflexivity|].
  simpl in Hu. apply andb_true_iff in Hu as [Hc Hu].
  change ((c :: u) ++ x) with (c :: u ++ x).
  rewrite scan_cons by apply regex_here_bound.
  change (c :: u ++ x) with ((c :: u) ++ x).
  rewrite ci_mismatch_here by exact Hc. simpl. f_equal. apply IH, Hu.
Qed.

Hypothesis whole : ci_mismatch (keyword rx1) r2 = true.

Lemma replace_regex_nil : replace_regex [] rx2 r2 = [].
Proof. unfold replace_regex. simpl. rewrite regex_here_nil; auto. Qed.

(** Replacing the matches of [rx2] keeps every match of [rx1] reading
    [r1]. *)
Lemma cross_stable z :
  stable rx1 r1 z -> stable rx1 r1 (replace_regex z rx2 r2).
Proof.
  induction z as [z IH] using length_ind. intros Hz.
  destruct z as [|c z]; [rewrite replace_regex_nil; exact Hz|].
  unfold replace_regex. rewrite scan_cons by apply regex_here_bound.
  destruct (regex_here rx2 (c :: z)) as [[|n]|] eqn:E.
  - exfalso. exact (regex_here_pos _ _ E).
  - apply stable_app; [exact none_in_r2|].
    apply IH; [rewrite length_skipn; simpl; lia|].
    apply stable_skipn, (stable_tl Hz).
  - assert (Hcons : replace_regex (c :: z) rx2 r2 = c :: replace_regex z rx2 r2).
    { unfold replace_regex. rewrite scan_cons by apply regex_here_bound.
      rewrite E. reflexivity. }
    split; [|apply IH; [simpl; lia|apply (stable_tl Hz)]].
    intros m Hm. fold (replace_regex z rx2 r2) in *. rewrite <- Hcons in *.
    assert (Ha : accepts_from (gap rx1) (keyword rx1) (c :: z) = true).
    { apply accepts_pullback with (rx := rx2) (r := r2) (kw := keyword rx1).
      - exact head_ok.
      - exact proper_tails.
      - left. exact whole.
      - right. destruct (keyword rx1); [discriminate|]. left. reflexivity.
      - rewrite regex_here_accepts, Hm. reflexivity. }
    rewrite regex_here_accepts in Ha.
    destruct (regex_here rx1 (c :: z)) as [m'|] eqn:E1; [|discriminate].
    pose proof (regex_here_boundary _ _ E1) as Hb.
    destruct Hz as [Hz _]. specialize (Hz _ E1).
    rewrite <- (firstn_skipn m' (c :: z)), Hz in Hm |- *.
    rewrite replace_through in Hm |- * by exact none_in_r1.
    rewrite self_match in Hm
      by (apply replace_boundary; [exact head_ok|exact Hb]).
    injection Hm as <-. apply firstn_length_app.
Qed.

End CrossStable.


Lemma token_self_match o :
  boundary o = true ->
  regex_here token_rx (token_redacted ++ o) = Some (length token_redacted).
Proof.
  destruct o as [|c o]; [intros _; vm_compute; reflexivity|].
  simpl boundary. intros H. unfold regex_here. cbn.
  unfold non_space. rewrite H. reflexivity.
Qed.

Lemma auth_self_match o :
  boundary o = true ->
  regex_here auth_rx (auth_redacted ++ o) = Some (length auth_redacted).
Proof.
  destruct o as [|c o]; [intros _; vm_compute; reflexivity|].
  simpl boundary. intros H. unfold regex_here. cbn.
  unfold non_space. rewrite H. reflexivity.
Qed.

Lemma token_replace_stable y :
  stable token_rx token_redacted (replace_regex y token_rx token_redacted).
Proof.
  apply replace_stable; try reflexivity. apply token_self_match.
Qed.

Lemma auth_replace_stable y :
  stable auth_rx auth_redacted (replace_regex y auth_rx auth_redacted).
Proof.
  apply replace_stable; try reflexivity. apply auth_self_match.
Qed.

Lemma token_stable_after_auth z :
  stable token_rx token_redacted z ->
  stable token_rx token_redacted (replace_regex z auth_rx auth_redacted).
Proof.
  apply cross_stable; try reflexivity. apply token_self_match.
Qed.

Lemma redact_patterns_absent reg z :
  (forall s, In s reg -> s <> [] /\ includes z s = false) ->
  redact_patterns reg z = z.
Proof.
  unfold redact_patterns. induction reg as [|p reg IH]; intros H; [reflexivity|].
  simpl. destruct (H p (or_introl eq_refl)) as [Hp Hi].
  rewrite replaceAll_absent by assumption.
  apply IH. intros s Hs. apply H. right. exact Hs.
Qed.

(* ===================================================================== *)
(** * The request engine and the gate: supporting facts *)
(* ===================================================================== *)

Lemma eqb_eq (a b : jsstring) : JsString.eqb a b = true <-> a = b.
Proof.
  revert b. induction a as [|x a IH]; intros [|y b]; simpl;
    try (split; [discriminate|congruence]); [tauto|].
  rewrite andb_true_iff, N.eqb_eq, IH. split; [intros [-> ->]|intros [= -> ->]]; auto.
Qed.

Lemma array_includes_In l (x : jsstring) : array_includes l x = true <-> In x l.
Proof.
  unfold array_includes. rewrite existsb_exists. split.
  - intros [y [Hy E]]. apply eqb_eq in E. subst y. exact Hy.
  - intros H. exists x. split; [exact H|]. apply eqb_eq. reflexivity.
Qed.

Section Engine.

Variables (reg : registry) (w : World) (c : PveClient).
Variables (method path : jsstring) (body : option value).

(** Any rejection of [fetch] that is not a [PveError] leaves [request] as
    a [PveError] without status code, its message sanitized. *)
Lemma request_fetch_rejected err :
  fetch w (request_url c path) (request_init w c method body) = Rejected err ->
  instanceof_PveError err = false ->
  request reg w c method path body =
  Rejected (PveError (sanitizeMessage reg (message_or_string err)) None).
Proof.
  intros Hf He. unfold request. rewrite Hf. simpl. rewrite He. reflexivity.
Qed.

(** A failure status leaves [request] as a [PveError] carrying the status. *)
Lemma request_failure_status response :
  fetch w (request_url c path) (request_init w c method body)
  = Resolved response ->
  ok response = false ->
  request reg w c method path body =
  Rejected
    (PveError
       (sanitizeMessage reg
          (method +++ lit " " +++ path +++ lit " failed: " +++
           failure_detail response))
       (Some (status response))).
Proof.
  intros Hf Hok. unfold request. rewrite Hf. simpl. rewrite Hok. reflexivity.
Qed.

(** On success [request] is the unwrapping, a failure of which goes
    through the generic handler. *)
Lemma request_success response :
  fetch w (request_url c path) (request_init w c method body)
  = Resolved response ->
  ok response = true ->
  request reg w c method path body =
  try_catch (unwrap response)
    (fun err =>
       if instanceof_PveError err then Rejected err
       else Rejected (PveError (sanitizeMessage reg (message_or_string err))
                               None)).
Proof.
  intros Hf Hok. unfold request. rewrite Hf. simpl. rewrite Hok. reflexivity.
Qed.

(** A response that does not declare JSON yields its text, or [null] when
    the text is empty. *)
Lemma unwrap_text response t :
  includes (match content_type response with Some h => h | None => [] end)
           (lit "json") = false ->
  text response = Resolved t ->
  unwrap response =
  Resolved (match t with [] => VNull | _ :: _ => VString t end).
Proof. intros Hc Ht. unfold unwrap. rewrite Hc, Ht. reflexivity. Qed.

(** A JSON value other than [null] that has no [data] is returned as it
    is; an array is the case the specification names. *)
Lemma unwrap_bare response v :
  includes (match content_type response with Some h => h | None => [] end)
           (lit "json") = true ->
  json response = Resolved v ->
  member v (lit "data") = Some VUndefined ->
  unwrap response = Resolved v.
Proof.
  intros Hc Hj Hm. unfold unwrap, read. rewrite Hc, Hj. simpl.
  rewrite Hm. reflexivity.
Qed.

Lemma unwrap_array response items :
  includes (match content_type response with Some h => h | None => [] end)
           (lit "json") = true ->
  json response = Resolved (VArray items) ->
  unwrap response = Resolved (VArray items).
Proof. intros Hc Hj. apply unwrap_bare; auto. Qed.

(** An object with a [data] property that is not [undefined] yields that
    property. *)
Lemma unwrap_envelope response props v :
  includes (match content_type response with Some h => h | None => [] end)
           (lit "json") = true ->
  json response = Resolved (VObject props) ->
  lookup (lit "data") props = Some v ->
  is_undefined v = false ->
  unwrap response = Resolved v.
Proof.
  intros Hc Hj Hl Hu. unfold unwrap, read. rewrite Hc, Hj. simpl.
  rewrite Hl. simpl. rewrite Hu. reflexivity.
Qed.

(** While the body of a non-success response is read, a rejection is
    ignored, whatever it is: the detail is the status line. *)
Lemma failure_detail_unreadable response err :
  json response = Rejected err ->
  failure_detail response
  = of_N (status response) +++ lit " " +++ statusText response.
Proof. intros Hj. unfold failure_detail. rewrite Hj. reflexivity. Qed.

(** While the body of a successful response is read, a rejection takes
    the generic handler. *)
Lemma unwrap_rejected response err :
  (includes (match content_type response with Some h => h | None => [] end)
            (lit "json") = true /\ json response = Rejected err) \/
  (includes (match content_type response with Some h => h | None => [] end)
            (lit "json") = false /\ text response = Rejected err) ->
  unwrap response = Rejected err.
Proof.
  unfold unwrap. intros [[-> ->]|[-> ->]]; reflexivity.
Qed.

(** The four verbs are [request] with the verb's name. *)
Lemma verbs_are_request :
  get reg w c path = request reg w c (lit "GET") path None /\
  post reg w c path body = request reg w c (lit "POST") path body /\
  put reg w c path body = request reg w c (lit "PUT") path body /\
  delete reg w c path = request reg w c (lit "DELETE") path None.
Proof. repeat split. Qed.

End Engine.

Lemma registerSensitivePattern_nonempty pattern reg :
  Forall (fun p => p <> []) reg ->
  Forall (fun p => p <> []) (registerSensitivePattern pattern reg).
Proof.
  intros H. destruct pattern as [|x p]; [exact H|].
  unfold registerSensitivePattern. destruct (0 <? length (x :: p)); [|exact H].
  apply Forall_app. split; [exact H|]. constructor; [discriminate|constructor].
Qed.

(** The executor answers whatever the handler does. *)
Lemma wrapped_executor_returns options reg args :
  exists result, wrapped_executor options reg args = Resolved result.
Proof.
  unfold wrapped_executor. destruct (handler options args); simpl; eauto.
Qed.

(** The two registration scenarios of the specification: a [full] tool in
    a [read-only] process, and a [network] tool in a [full] process that
    allows [storage] only. *)
Lemma registration_scenarios :
  accepted (registerTool [] (Examples.process read_only None)
              (Examples.tool full storage Examples.throws_error)) = false /\
  accepted (registerTool [] (Examples.process full (Some [lit "storage"]))
              (Examples.tool read_only network Examples.throws_error))
  = false /\
  accepted (registerTool [] (Examples.process full (Some [lit "storage"]))
              (Examples.tool full storage Examples.throws_error)) = true.
Proof. repeat split. Qed.

Lemma parseCategories_never_empty value :
  snd (parseCategories value) <> Some [].
Proof.
  unfold parseCategories. destruct value as [[|x v]|]; try discriminate.
  cbv zeta. unfold snd.
  destruct (filter is_valid_category _) as [|y l]; simpl; discriminate.
Qed.

(* ===================================================================== *)
(** * The properties of the specification *)
(* ===================================================================== *)

(** C1, as stated, fails: with the registered secret [E], which occurs in
    the marker [[REDACTED]] itself, the sanitized message still contains
    the secret. *)
Lemma C1_secret_inside_marker_survives :
  In Examples.marker_secret Examples.marker_registry /\
  includes (lit "token E rejected") Examples.marker_secret = true /\
  sanitizeMessage Examples.marker_registry (lit "token E rejected")
  = lit "token [REDACTED] rejected" /\
  includes (sanitizeMessage Examples.marker_registry (lit "token E rejected"))
           Examples.marker_secret = true.
Proof. repeat split; try reflexivity. left. reflexivity. Qed.

(** C1, amended: a registered secret that cannot overlap any of the texts
    the sanitizer inserts does not occur in a sanitized message, whatever
    the message and the other registered secrets. *)
Theorem C1_sanitized_message_has_no_secret reg message secret :
  In secret reg ->
  clash_free secret = true ->
  includes (sanitizeMessage reg message) secret = false.
Proof.
  intros Hin Hfree.
  pose proof (@clash_free_nonempty secret Hfree) as Hne.
  apply clash_free_spec in Hfree as (Hmarker & Htoken & Hauth).
  unfold sanitizeMessage.
  (* the two regular expressions only cut pieces out and put their
     replacement in *)
  eapply splice_absent; [apply replace_regex_splice|exact Hauth|].
  eapply splice_absent; [apply replace_regex_splice|exact Htoken|].
  (* the loop removes the secret at its turn and does not bring it back *)
  apply redact_patterns_removes; assumption.
Qed.

Lemma C1_witness :
  In (tokenSecret Examples.config) Examples.secrets /\
  clash_free (tokenSecret Examples.config) = true /\
  includes Examples.leaking_message (tokenSecret Examples.config) = true /\
  includes (sanitizeMessage Examples.secrets Examples.leaking_message)
           (tokenSecret Examples.config) = false.
Proof.
  assert (Hin : In (tokenSecret Examples.config) Examples.secrets)
    by (right; left; reflexivity).
  split; [exact Hin|]. split; [reflexivity|]. split; [reflexivity|].
  apply C1_sanitized_message_has_no_secret; [exact Hin|reflexivity].
Defined.

(** What [registerTool] does for any configuration, also one that no
    loader returns: it accepts a tool exactly when the level of its tier
    does not exceed that of the process tier and the category list is
    [null] or contains the category. *)
Lemma registerTool_accepts server config options :
  accepted (registerTool server config options) = true <->
  (TIER_LEVELS (tool_accessTier options)
   <= TIER_LEVELS (accessTier config))%N /\
  (categories config = None \/
   exists allowed,
     categories config = Some allowed /\
     In (ToolCategory_name (category options)) allowed).
Proof.
  unfold registerTool, accepted.
  destruct (TIER_LEVELS (accessTier config)
            <? TIER_LEVELS (tool_accessTier options))%N eqn:Et.
  - apply N.ltb_lt in Et. simpl. split; [discriminate|]. intros [H _]. lia.
  - apply N.ltb_ge in Et. destruct (categories config) as [allowed|].
    + destruct (array_includes allowed _) eqn:Ei; simpl.
      * apply array_includes_In in Ei. split; [|reflexivity]. intros _.
        split; [exact Et|]. right. exists allowed. auto.
      * split; [discriminate|]. intros [_ [H|[l [[= <-] H]]]]; [discriminate|].
        apply array_includes_In in H. congruence.
    + simpl. split; [|reflexivity]. intros _. split; [exact Et|]. left. reflexivity.
Qed.

(** A configuration with an empty list that is not [null], which only a
    direct call can pass, lets no tool through. *)
Lemma empty_category_list_rejects :
  accepted (registerTool [] Examples.empty_list_config
              (Examples.storage_tool Examples.throws_error)) = false.
Proof. reflexivity. Qed.

(** The category list of a loaded configuration is the one
    [parseCategories] returns. *)
Lemma loadConfig_categories env config :
  snd (loadConfig env) = Resolved config ->
  categories config = snd (parseCategories (PVE_CATEGORIES env)).
Proof.
  unfold loadConfig.
  destruct (0 <? length (missing_variables env)); [discriminate|].
  cbn [snd]. intros [= <-]. reflexivity.
Qed.

(** C2: in a process whose configuration [loadConfig] returned, the
    filter accepts a tool exactly when the level of its tier does not
    exceed that of the process tier and the category list is empty or
    contains the tool's category; this is the filter as the
    specification words it, and a category outside a non-empty list is
    rejected whatever the tiers. *)
Theorem C2_registerTool_accepts_iff env config server options :
  snd (loadConfig env) = Resolved config ->
  (accepted (registerTool server config options) = true <->
   (TIER_LEVELS (tool_accessTier options)
    <= TIER_LEVELS (accessTier config))%N /\
   (category_list config = [] \/
    In (ToolCategory_name (category options)) (category_list config))) /\
  accepted (registerTool server config options)
  = spec_filter (tool_accessTier options) (accessTier config)
                (category_list config) (category options) /\
  (category_list config <> [] ->
   ~ In (ToolCategory_name (category options)) (category_list config) ->
   accepted (registerTool server config options) = false).
Proof.
  intros Hl.
  (* the loader gives [null], never an empty list *)
  assert (Hne : categories config <> Some []).
  { rewrite (loadConfig_categories _ Hl). apply parseCategories_never_empty. }
  assert (Hiff : accepted (registerTool server config options) = true <->
                 (TIER_LEVELS (tool_accessTier options)
                  <= TIER_LEVELS (accessTier config))%N /\
                 (category_list config = [] \/
                  In (ToolCategory_name (category options))
                     (category_list config))).
  { rewrite registerTool_accepts. unfold category_list.
    destruct (categories config) as [[|x allowed]|]; [congruence| |].
    - split.
      + intros [Ht [H|(l & [= <-] & Hin)]]; [discriminate|]. auto.
      + intros [Ht [H|Hin]]; [discriminate|]. split; [exact Ht|]. eauto.
    - split; intros [Ht _]; auto. }
  split; [exact Hiff|]. split.
  - (* the boolean filter of the specification says the same *)
    apply eq_true_iff_eq. rewrite Hiff. unfold spec_filter.
    rewrite andb_true_iff, orb_true_iff, N.leb_le, array_includes_In.
    destruct (category_list config); intuition congruence.
  - intros Hlist Hout. apply not_true_is_false. intros Ea.
    apply Hiff in Ea as [_ [He|Hin]]; contradiction.
Qed.

Lemma C2_witness :
  exists config,
    snd (loadConfig Cases.environment) = Resolved config /\
    accessTier config = read_execute /\
    category_list config = [lit "qemu"; lit "lxc"] /\
    accepted (registerTool [] config
                (Examples.tool read_execute lxc Examples.throws_error))
    = true /\
    accepted (registerTool [] config
                (Examples.tool read_only storage Examples.throws_error))
    = false /\
    accepted (registerTool [] config
                (Examples.tool full qemu Examples.throws_error))
    = false.
Proof.
  eexists. split; [reflexivity|]. split; [reflexivity|].
  split; [reflexivity|]. split; [|split].
  - rewrite (proj1 (proj2 (@C2_registerTool_accepts_iff Cases.environment _
                             [] (Examples.tool read_execute lxc
                                   Examples.throws_error) eq_refl))).
    reflexivity.
  - apply (proj2 (proj2 (@C2_registerTool_accepts_iff Cases.environment _
                           [] (Examples.tool read_only storage
                                 Examples.throws_error) eq_refl))).
    + discriminate.
    + intros [H|[H|[]]]; discriminate.
  - rewrite (proj1 (proj2 (@C2_registerTool_accepts_iff Cases.environment _
                             [] (Examples.tool full qemu
                                   Examples.throws_error) eq_refl))).
    reflexivity.
Defined.

(** C3: when the handler of a registered tool throws an [Error] with
    message [m], the registered executor returns, without throwing, a
    result flagged as an error whose text is [sanitizeMessage m]; and
    whatever the handler does, the executor returns a result. *)
Theorem C3_thrown_error_is_returned_sanitized
        server config options reg args err :
  accepted (registerTool server config options) = true ->
  instanceof_Error err = true ->
  handler options args = Rejected err ->
  exists tool,
    server_after (registerTool server config options) = server ++ [tool] /\
    tool_name tool = name options /\
    callback tool reg args =
    Resolved (failure_result (sanitizeMessage reg (message_or_string err))) /\
    (forall reg' args',
        exists result, callback tool reg' args' = Resolved result).
Proof.
  intros Ha He Hh. unfold registerTool, accepted, server_after in *.
  destruct (_ <? _)%N; [discriminate|].
  destruct (match categories config with None => false | Some _ => _ end);
    [discriminate|].
  eexists. split; [reflexivity|]. split; [reflexivity|]. split.
  - simpl. unfold wrapped_executor. rewrite Hh. simpl.
    destruct err; try discriminate; reflexivity.
  - intros reg' args'. apply wrapped_executor_returns.
Qed.

Lemma C3_witness :
  exists tool,
    server_after (registerTool [] Examples.config
                    (Examples.storage_tool Examples.throws_error))
    = [] ++ [tool] /\
    tool_name tool = lit "pve_list_storage" /\
    callback tool Examples.secrets VNull =
    Resolved
      (failure_result
         (lit "GET /nodes failed: [REDACTED] rejected, authorization: [REDACTED]"))
    /\
    (forall reg' args',
        exists result, callback tool reg' args' = Resolved result).
Proof.
  exact (C3_thrown_error_is_returned_sanitized [] Examples.config
           (Examples.storage_tool Examples.throws_error) Examples.secrets
           VNull (err := OtherError (lit "Error") Examples.leaking_message)
           eq_refl eq_refl eq_refl).
Defined.

(** C4: a successful JSON response whose body is the bare value [null] is
    not returned unchanged: reading [data] of it throws, and [request]
    fails with a [PveError].  (Envelope objects, other bare values and
    non-JSON bodies are unwrapped as the specification says:
    [unwrap_envelope], [unwrap_bare], [unwrap_array], [unwrap_text],
    [verbs_are_request].) *)
Theorem C4_bare_null_is_not_returned :
  ok Examples.bare_null = true /\
  member VNull (lit "data") = None /\
  get Examples.secrets (Examples.answering Examples.bare_null)
      Examples.client (lit "/cluster/options")
  = Rejected
      (PveError (lit "Cannot read properties of null (reading 'data')") None).
Proof. repeat split. Qed.

(** C5, as stated, fails: for HTTP 403 the message [request] raises does
    not speak of authentication; it has the form used for every failure
    status. *)
Lemma C5_forbidden_message_is_generic :
  get Examples.secrets (Examples.answering Examples.forbidden)
      Examples.client (lit "/storage")
  = Rejected (PveError (lit "GET /storage failed: 403 Forbidden") (Some 403%N))
  /\ mentions_authentication (lit "GET /storage failed: 403 Forbidden") = false.
Proof. split; reflexivity. Qed.

(** C5, amended: for HTTP 401 or 403 [request] raises a [PveError] that
    carries the status code and whose message is the sanitized
    [<method> <path> failed: <detail>]; a handler that lets it propagate
    has it returned by the wrapped executor as a failure result, sanitized
    once more; at startup [validateConnection] answers 401 or 403 with the
    fixed message that speaks of authentication, and the process exits
    with code 1; and [request] builds the error of every other failure
    status by the same expression. *)
Theorem C5_auth_status_failure reg w c method path body response :
  fetch w (request_url c path) (request_init w c method body)
  = Resolved response ->
  status response = 401%N \/ status response = 403%N ->
  let message :=
    sanitizeMessage reg
      (method +++ lit " " +++ path +++ lit " failed: " +++
       failure_detail response) in
  request reg w c method path body
  = Rejected (PveError message (Some (status response))) /\
  (forall options args (k : value -> outcome jsstring),
      handler options args = (v <- request reg w c method path body ;; k v) ->
      wrapped_executor options reg args
      = Resolved (failure_result (sanitizeMessage reg message))) /\
  (forall answer,
      fetch w (version_url c) (version_init c) = Resolved answer ->
      status answer = 401%N \/ status answer = 403%N ->
      client_validateConnection reg w c
      = Rejected (PveError authentication_failed (Some (status answer))) /\
      mentions_authentication authentication_failed = true /\
      snd (validateConnection reg w c) = Exit 1) /\
  (forall w' other,
      fetch w' (request_url c path) (request_init w' c method body)
      = Resolved other ->
      ok other = false ->
      request reg w' c method path body
      = Rejected
          (PveError
             (sanitizeMessage reg
                (method +++ lit " " +++ path +++ lit " failed: " +++
                 failure_detail other))
             (Some (status other)))).
Proof.
  intros Hf Hs message.
  assert (Hok : ok response = false).
  { unfold ok. destruct Hs as [-> | ->]; reflexivity. }
  assert (Hr : request reg w c method path body
               = Rejected (PveError message (Some (status response)))).
  { apply request_failure_status; assumption. }
  split; [exact Hr|]. split; [|split].
  - intros options args k Hh. unfold wrapped_executor.
    rewrite Hh, Hr. reflexivity.
  - intros answer Ha Hsa.
    assert (Hv : client_validateConnection reg w c
                 = Rejected (PveError authentication_failed
                                      (Some (status answer)))).
    { unfold client_validateConnection. rewrite Ha. simpl.
      destruct Hsa as [-> | ->]; reflexivity. }
    split; [exact Hv|]. split; [reflexivity|].
    unfold validateConnection. rewrite Hv. reflexivity.
  - intros w' other Hf' Hok'. unfold request. rewrite Hf'. simpl.
    rewrite Hok'. reflexivity.
Qed.

Lemma C5_witness :
  get Examples.secrets (Examples.answering Examples.forbidden)
      Examples.client (lit "/storage")
  = Rejected (PveError (lit "GET /storage failed: 403 Forbidden") (Some 403%N))
  /\ wrapped_executor
       (Examples.storage_tool
          (Examples.calls_backend (Examples.answering Examples.forbidden)))
       Examples.secrets VNull
     = Resolved (failure_result (lit "GET /storage failed: 403 Forbidden"))
  /\ snd (validateConnection Examples.secrets
            (Examples.answering Examples.forbidden) Examples.client)
     = Exit 1
  /\ get Examples.secrets (Examples.answering Cases.bad_parameters)
         Examples.client (lit "/storage")
     = Rejected
         (PveError
            (lit "GET /storage failed: 400 Bad Request " +++ emdash +++
             lit " vmid: invalid format, node: no such node")
            (Some 400%N)).
Proof.
  pose proof (@C5_auth_status_failure Examples.secrets
                (Examples.answering Examples.forbidden) Examples.client
                (lit "GET") (lit "/storage") None Examples.forbidden
                eq_refl (or_intror eq_refl)) as [H1 [H2 [H3 H4]]].
  split; [exact H1|]. split; [|split].
  - exact (H2 (Examples.storage_tool
                 (Examples.calls_backend
                    (Examples.answering Examples.forbidden)))
              VNull
              (fun data =>
                 Resolved
                   (JSON_stringify (Examples.answering Examples.forbidden)
                                   data))
              eq_refl).
  - exact (proj2 (proj2 (H3 Examples.forbidden eq_refl (or_intror eq_refl)))).
  - exact (H4 (Examples.answering Cases.bad_parameters) Cases.bad_parameters
              eq_refl eq_refl).
Defined.

(** C6, as stated, fails: when the timer fires while the body of a
    response with a failure status is read, the rejection is swallowed
    and the call fails with that status code, unlike a call whose host
    cannot be reached. *)
Lemma C6_timeout_while_reading_failure_body :
  json Cases.stalled_failure = Rejected timeout_rejection /\
  get Examples.secrets (Examples.answering Cases.stalled_failure)
      Examples.client (lit "/nodes")
  = Rejected
      (PveError (lit "GET /nodes failed: 500 Internal Server Error")
                (Some 500%N)) /\
  get Examples.secrets (Examples.rejecting unreachable_rejection)
      Examples.client (lit "/nodes")
  = Rejected (PveError (lit "fetch failed") None).
Proof. repeat split. Qed.

(** C6, amended: the timer is set to 30000 ms.  When it fires, or the
    host cannot be reached, before [fetch] settles or while the body of a
    response with a success status is read, [request] leaves through the
    generic handler, as a [PveError] with the sanitized message of the
    rejection and no status code.  When it happens while the body of a
    response with a failure status is read, the rejection is ignored and
    the [PveError] carries the status code and the status line. *)
Theorem C6_timeout_failure_kinds reg w c method path body err :
  err = timeout_rejection \/ err = unreachable_rejection ->
  init_signal_timeout (request_init w c method body) = 30000%N /\
  (fetch w (request_url c path) (request_init w c method body)
   = Rejected err ->
   request reg w c method path body
   = Rejected (PveError (sanitizeMessage reg (message_or_string err)) None))
  /\
  (forall response,
      fetch w (request_url c path) (request_init w c method body)
      = Resolved response ->
      ok response = true ->
      (includes (match content_type response with
                 | Some h => h
                 | None => []
                 end) (lit "json") = true /\
       json response = Rejected err) \/
      (includes (match content_type response with
                 | Some h => h
                 | None => []
                 end) (lit "json") = false /\
       text response = Rejected err) ->
      request reg w c method path body
      = Rejected (PveError (sanitizeMessage reg (message_or_string err))
                           None)) /\
  (forall response,
      fetch w (request_url c path) (request_init w c method body)
      = Resolved response ->
      ok response = false ->
      json response = Rejected err ->
      request reg w c method path body
      = Rejected
          (PveError
             (sanitizeMessage reg
                (method +++ lit " " +++ path +++ lit " failed: " +++
                 of_N (status response) +++ lit " " +++
                 statusText response))
             (Some (status response)))).
Proof.
  intros He.
  assert (Hne : instanceof_PveError err = false).
  { destruct He as [-> | ->]; reflexivity. }
  split; [reflexivity|]. split; [|split].
  - intros Hf. apply request_fetch_rejected; assumption.
  - intros response Hf Hok Hbody.
    rewrite (request_success reg _ _ _ _ _ Hf Hok).
    rewrite (unwrap_rejected _ Hbody). simpl. rewrite Hne. reflexivity.
  - intros response Hf Hok Hj.
    rewrite (request_failure_status reg _ _ _ _ _ Hf Hok).
    rewrite (failure_detail_unreadable _ Hj). reflexivity.
Qed.

Lemma C6_witness :
  (get Examples.secrets (Examples.rejecting timeout_rejection)
       Examples.client (lit "/nodes")
   = Rejected
       (PveError (lit "The operation was aborted due to timeout") None) /\
   get Examples.secrets (Examples.rejecting unreachable_rejection)
       Examples.client (lit "/nodes")
   = Rejected (PveError (lit "fetch failed") None)) /\
  get Examples.secrets (Examples.answering Cases.stalled_answer)
      Examples.client (lit "/nodes")
  = Rejected
      (PveError (lit "The operation was aborted due to timeout") None) /\
  get Examples.secrets (Examples.answering Cases.stalled_failure)
      Examples.client (lit "/nodes")
  = Rejected
      (PveError (lit "GET /nodes failed: 500 Internal Server Error")
                (Some 500%N)).
Proof.
  pose proof (@C6_timeout_failure_kinds Examples.secrets
                (Examples.rejecting timeout_rejection) Examples.client
                (lit "GET") (lit "/nodes") None timeout_rejection
                (or_introl eq_refl)) as (_ & Hfetch & _ & _).
  pose proof (@C6_timeout_failure_kinds Examples.secrets
                (Examples.rejecting unreachable_rejection) Examples.client
                (lit "GET") (lit "/nodes") None unreachable_rejection
                (or_intror eq_refl)) as (_ & Hdown & _ & _).
  pose proof (@C6_timeout_failure_kinds Examples.secrets
                (Examples.answering Cases.stalled_answer) Examples.client
                (lit "GET") (lit "/nodes") None timeout_rejection
                (or_introl eq_refl)) as (_ & _ & Hbody & _).
  pose proof (@C6_timeout_failure_kinds Examples.secrets
                (Examples.answering Cases.stalled_failure) Examples.client
                (lit "GET") (lit "/nodes") None timeout_rejection
                (or_introl eq_refl)) as (_ & _ & _ & Hstatus).
  split; [split|split].
  - exact (Hfetch eq_refl).
  - exact (Hdown eq_refl).
  - exact (Hbody Cases.stalled_answer eq_refl eq_refl
                 (or_introl (conj eq_refl eq_refl))).
  - exact (Hstatus Cases.stalled_failure eq_refl eq_refl eq_refl).
Defined.

(** C7, as stated, fails: with the registered secret [E] a second pass
    redacts the [E]s of the marker the first pass inserted. *)
Lemma C7_second_pass_changes_marker :
  sanitizeMessage Examples.marker_registry (lit "E") = lit "[REDACTED]" /\
  sanitizeMessage Examples.marker_registry
    (sanitizeMessage Examples.marker_registry (lit "E"))
  = lit "[R[REDACTED]DACT[REDACTED]D]" /\
  sanitizeMessage Examples.marker_registry
    (sanitizeMessage Examples.marker_registry (lit "E"))
  <> sanitizeMessage Examples.marker_registry (lit "E").
Proof. repeat split; try reflexivity. discriminate. Qed.

(** C7, amended: when no registered secret can overlap a text the
    sanitizer inserts, sanitizing twice gives what sanitizing once
    gives. *)
Theorem C7_sanitize_twice_is_sanitize_once reg t :
  (forall secret, In secret reg -> clash_free secret = true) ->
  sanitizeMessage reg (sanitizeMessage reg t) = sanitizeMessage reg t.
Proof.
  intros Hreg. unfold sanitizeMessage at 1.
  (* no registered secret occurs in a sanitized text: the loop is idle *)
  rewrite redact_patterns_absent.
  - unfold sanitizeMessage.
    (* every match of the token expression reads its replacement *)
    rewrite (@stable_fixed token_rx token_redacted).
    + (* and so does every match of the authorization expression *)
      apply stable_fixed, auth_replace_stable.
    + apply token_stable_after_auth, token_replace_stable.
  - intros s Hs. split.
    + apply clash_free_nonempty, Hreg, Hs.
    + apply sanitize_removes; auto.
Qed.

Lemma C7_witness :
  sanitizeMessage Examples.secrets
    (sanitizeMessage Examples.secrets Examples.leaking_message)
  = sanitizeMessage Examples.secrets Examples.leaking_message.
Proof.
  apply C7_sanitize_twice_is_sanitize_once.
  intros secret [<- | [<- | []]]; reflexivity.
Defined.

(** C8: a successful JSON response that is an object with a [data]
    property other than [undefined] yields exactly that property, [null]
    included; the other properties of the object are dropped. *)
Theorem C8_envelope_yields_data reg w c method path body response header
        props v :
  fetch w (request_url c path) (request_init w c method body)
  = Resolved response ->
  ok response = true ->
  content_type response = Some header ->
  includes header (lit "json") = true ->
  json response = Resolved (VObject props) ->
  lookup (lit "data") props = Some v ->
  is_undefined v = false ->
  request reg w c method path body = Resolved v.
Proof.
  intros Hf Hok Hc Hi Hj Hl Hu.
  rewrite (request_success reg _ _ _ _ _ Hf Hok).
  rewrite (@unwrap_envelope response props v); auto.
  rewrite Hc. exact Hi.
Qed.

Lemma C8_witness :
  get Examples.secrets (Examples.answering Examples.null_envelope)
      Examples.client (lit "/cluster/options")
  = Resolved VNull.
Proof.
  exact (@C8_envelope_yields_data Examples.secrets
           (Examples.answering Examples.null_envelope) Examples.client
           (lit "GET") (lit "/cluster/options") None Examples.null_envelope
           (lit "application/json;charset=UTF-8")
           [(lit "data", VNull); (lit "extra", VNumber (lit "1"))] VNull
           eq_refl eq_refl eq_refl eq_refl eq_refl eq_refl eq_refl).
Defined.

(** C9: when the handler of a registered tool throws a value that is not
    an [Error], the registered executor returns a failure result with the
    fixed text [An unknown error occurred], whatever the value and the
    registry. *)
Theorem C9_thrown_non_error_gives_fixed_text
        server config options reg args v :
  accepted (registerTool server config options) = true ->
  handler options args = Rejected (NonError v) ->
  exists tool,
    server_after (registerTool server config options) = server ++ [tool] /\
    callback tool reg args
    = Resolved (failure_result (lit "An unknown error occurred")).
Proof.
  intros Ha Hh. unfold registerTool, accepted, server_after in *.
  destruct (_ <? _)%N; [discriminate|].
  destruct (match categories config with None => false | Some _ => _ end);
    [discriminate|].
  eexists. split; [reflexivity|].
  simpl. unfold wrapped_executor. rewrite Hh. reflexivity.
Qed.

Lemma C9_witness :
  exists tool,
    server_after (registerTool [] Examples.config
                    (Examples.storage_tool Examples.throws_string))
    = [] ++ [tool] /\
    callback tool Examples.secrets VNull
    = Resolved (failure_result (lit "An unknown error occurred")).
Proof.
  exact (@C9_thrown_non_error_gives_fixed_text [] Examples.config
           (Examples.storage_tool Examples.throws_string) Examples.secrets
           VNull (VString Examples.leaking_message) eq_refl eq_refl).
Defined.

(** C10: after any sequence of [registerSensitivePattern] calls the
    registry holds non-empty strings only, and registering the empty
    string changes nothing. *)
Theorem C10_registry_has_no_empty_pattern :
  (forall calls,
      Forall (fun p => p <> []) (register_all calls SENSITIVE_PATTERNS)) /\
  (forall reg, registerSensitivePattern [] reg = reg).
Proof.
  split; [|reflexivity].
  intros calls. unfold register_all.
  assert (H : forall reg, Forall (fun p => p <> []) reg ->
                          Forall (fun p : jsstring => p <> [])
                                 (fold_left
                                    (fun reg pattern =>
                                       registerSensitivePattern pattern reg)
                                    calls reg)).
  { induction calls as [|p calls IH]; intros reg Hreg; [exact Hreg|].
    simpl. apply IH, registerSensitivePattern_nonempty, Hreg. }
  apply H. constructor.
Qed.

(* ===================================================================== *)
(** * The sanitizer: what a sanitized message looks like *)
(* ===================================================================== *)

Section SanitizerMore.

Lemma stable_head rx r w n :
  stable rx r w -> regex_here rx w = Some n -> firstn n w = r.
Proof. destruct w; intros [H _]; apply H. Qed.

Lemma sanitize_token_stable reg m :
  stable token_rx token_redacted (sanitizeMessage reg m).
Proof. apply token_stable_after_auth, token_replace_stable. Qed.

Lemma sanitize_auth_stable reg m :
  stable auth_rx auth_redacted (sanitizeMessage reg m).
Proof. apply auth_replace_stable. Qed.

Lemma canonicalize_lower a b :
  canonicalize a = canonicalize b -> ascii_lower a = ascii_lower b.
Proof.
  unfold canonicalize, ascii_lower.
  destruct (97 <=? a)%N eqn:A1; destruct (a <=? 122)%N eqn:A2;
  destruct (97 <=? b)%N eqn:B1; destruct (b <=? 122)%N eqn:B2;
  destruct (65 <=? a)%N eqn:A3; destruct (a <=? 90)%N eqn:A4;
  destruct (65 <=? b)%N eqn:B3; destruct (b <=? 90)%N eqn:B4;
  simpl; intros H;
  repeat match goal with
         | E : (_ <=? _)%N = true |- _ => apply N.leb_le in E
         | E : (_ <=? _)%N = false |- _ => apply N.leb_gt in E
         end; lia.
Qed.

Lemma ci_strip_lower kw s rest :
  ci_strip kw s = Some rest ->
  prefixb (map ascii_lower kw) (map ascii_lower s) = true.
Proof.
  revert s. induction kw as [|k kw IH]; intros s H; [reflexivity|].
  destruct s as [|c s]; simpl in H; [discriminate|].
  destruct (ci_eq k c) eqn:E; [|discriminate].
  unfold ci_eq in E. apply N.eqb_eq, canonicalize_lower in E.
  simpl. rewrite E, N.eqb_refl. simpl. eauto.
Qed.

Lemma regex_here_mentions rx s n :
  regex_here rx s = Some n ->
  prefixb (map ascii_lower (keyword rx)) (map ascii_lower s) = true.
Proof.
  unfold regex_here.
  destruct (ci_strip (keyword rx) s) as [rest|] eqn:E; [|discriminate].
  intros _. eapply ci_strip_lower; eauto.
Qed.

(** Where the keyword does not occur, the replacement changes nothing. *)
Lemma replace_regex_absent rx r s :
  mentions s (keyword rx) = false -> replace_regex s rx r = s.
Proof.
  unfold replace_regex, mentions. induction s as [|c s IH]; intros Hm.
  - simpl. destruct (regex_here rx []) eqn:E; [|reflexivity].
    apply regex_here_mentions in E. simpl in Hm. simpl in E.
    rewrite E in Hm. discriminate.
  - simpl map in Hm. rewrite includes_cons in Hm.
    apply orb_false_iff in Hm as [H1 H2].
    simpl. destruct (regex_here rx (c :: s)) eqn:E.
    + apply regex_here_mentions in E. simpl map in E. congruence.
    + f_equal. apply IH, H2.
Qed.

End SanitizerMore.

(** X1: in a sanitized message, wherever the token expression
    [/PVEAPIToken=[^\s]+/gi] matches, the match is the text
    [PVEAPIToken=[REDACTED]] and ends at the end of the message or before
    white space: no token parameter other than the redacted one is left. *)
Theorem sanitized_token_parameter_is_redacted reg message k n :
  regex_here token_rx (skipn k (sanitizeMessage reg message)) = Some n ->
  firstn n (skipn k (sanitizeMessage reg message)) = token_redacted /\
  boundary (skipn n (skipn k (sanitizeMessage reg message))) = true.
Proof.
  intros H. split.
  - eapply stable_head; [|exact H].
    apply stable_skipn, sanitize_token_stable.
  - apply (regex_here_boundary _ _ H).
Qed.

Lemma sanitized_token_parameter_witness :
  firstn 22 (skipn 21 (sanitizeMessage Examples.secrets Cases.token_message))
  = token_redacted /\
  boundary
    (skipn 22
       (skipn 21 (sanitizeMessage Examples.secrets Cases.token_message)))
  = true.
Proof.
  apply sanitized_token_parameter_is_redacted. vm_compute. reflexivity.
Defined.

(** X2: in a sanitized message, wherever the header expression
    [/authorization:\s*[^\s]+/gi] matches, the match is the text
    [authorization: [REDACTED]] and ends at the end of the message or
    before white space. *)
Theorem sanitized_authorization_value_is_redacted reg message k n :
  regex_here auth_rx (skipn k (sanitizeMessage reg message)) = Some n ->
  firstn n (skipn k (sanitizeMessage reg message)) = auth_redacted /\
  boundary (skipn n (skipn k (sanitizeMessage reg message))) = true.
Proof.
  intros H. split.
  - eapply stable_head; [|exact H].
    apply stable_skipn, sanitize_auth_stable.
  - apply (regex_here_boundary _ _ H).
Qed.

Lemma sanitized_authorization_value_witness :
  firstn 25
    (skipn 40 (sanitizeMessage Examples.secrets Examples.leaking_message))
  = auth_redacted /\
  boundary
    (skipn 25
       (skipn 40 (sanitizeMessage Examples.secrets Examples.leaking_message)))
  = true.
Proof.
  apply sanitized_authorization_value_is_redacted. vm_compute. reflexivity.
Defined.

(** X3: a message in which no registered secret occurs and which
    mentions neither [PVEAPIToken=] nor [authorization:], in any case of
    the letters, is returned unchanged. *)
Theorem sanitize_leaves_clean_message reg message :
  (forall secret, In secret reg -> includes message secret = false) ->
  mentions message (lit "PVEAPIToken=") = false ->
  mentions message (lit "authorization:") = false ->
  sanitizeMessage reg message = message.
Proof.
  intros Hreg Ht Ha. unfold sanitizeMessage.
  rewrite redact_patterns_absent.
  - rewrite (replace_regex_absent token_rx) by exact Ht.
    apply (replace_regex_absent auth_rx), Ha.
  - intros s Hs. split; [|auto].
    intros ->. specialize (Hreg _ Hs). destruct message; discriminate.
Qed.

Lemma sanitize_leaves_clean_message_witness :
  sanitizeMessage Examples.secrets Cases.clean_message = Cases.clean_message.
Proof.
  apply sanitize_leaves_clean_message.
  - intros secret [<- | [<- | []]]; vm_compute; reflexivity.
  - vm_compute. reflexivity.
  - vm_compute. reflexivity.
Defined.

(** X4: after any sequence of [registerSensitivePattern] calls the
    registry is what it was, followed by the non-empty arguments in the
    order of the calls; empty arguments leave no trace and nothing is
    removed or reordered. *)
Theorem registry_is_the_nonempty_calls calls reg :
  register_all calls reg = reg ++ filter (fun p => negb (is_empty p)) calls.
Proof.
  unfold register_all. revert reg.
  induction calls as [|p calls IH]; intros reg; simpl.
  - symmetry. apply app_nil_r.
  - rewrite IH. destruct p as [|x p]; simpl; [reflexivity|].
    rewrite <- app_assoc. reflexivity.
Qed.

(* ===================================================================== *)
(** * The request engine: failures and payloads *)
(* ===================================================================== *)

Lemma unwrap_rejection response err :
  foreign (json response) = true -> foreign (text response) = true ->
  unwrap response = Rejected err -> instanceof_PveError err = false.
Proof.
  unfold unwrap, read. intros Hj Ht.
  destruct (negb (includes _ _)).
  - destruct (text response) as [t|e]; simpl in *; [discriminate|].
    intros [= <-]. apply negb_true_iff, Ht.
  - destruct (json response) as [v|e]; simpl in *.
    + destruct (member v (lit "data")); simpl; [discriminate|].
      intros [= <-]. reflexivity.
    + intros [= <-]. apply negb_true_iff, Hj.
Qed.



(** X6: provided [fetch] and the body readers throw no [PveError] of
    their own, the error of [request] carries a status code exactly when
    the backend answered with a status outside 200..299; the code is
    that status and the message is the sanitized
    [<method> <path> failed: <detail>]. *)
Theorem request_status_code_iff_failure_status
        reg w c method path body message code :
  platform_errors_only w (request_url c path) (request_init w c method body)
  = true ->
  (request reg w c method path body = Rejected (PveError message (Some code))
   <->
   exists response,
     fetch w (request_url c path) (request_init w c method body)
     = Resolved response /\
     ok response = false /\ status response = code /\
     message = sanitizeMessage reg
                 (method +++ lit " " +++ path +++ lit " failed: " +++
                  failure_detail response)).
Proof.
  unfold platform_errors_only, request. intros Hp.
  destruct (fetch w (request_url c path) (request_init w c method body))
    as [response|e]; simpl.
  - apply andb_true_iff in Hp as [Hj Ht].
    destruct (ok response) eqn:Hok; simpl.
    + split.
      * destruct (unwrap response) as [v|e] eqn:Eu; simpl; [discriminate|].
        rewrite (unwrap_rejection _ Hj Ht Eu). discriminate.
      * intros [r [[= <-] [H _]]]. congruence.
    + split.
      * intros [= <- <-]. exists response. auto.
      * intros [r [[= <-] [_ [<- ->]]]]. reflexivity.
  - apply negb_true_iff in Hp. rewrite Hp. split; [discriminate|].
    intros [r [H _]]. discriminate.
Qed.

Lemma request_status_code_witness :
  request Examples.secrets (Examples.answering Examples.forbidden)
    Examples.client (lit "GET") (lit "/storage") None
  = Rejected (PveError (lit "GET /storage failed: 403 Forbidden")
                       (Some 403%N))
  <->
  exists response,
    fetch (Examples.answering Examples.forbidden)
      (request_url Examples.client (lit "/storage"))
      (request_init (Examples.answering Examples.forbidden) Examples.client
         (lit "GET") None)
    = Resolved response /\
    ok response = false /\ status response = 403%N /\
    lit "GET /storage failed: 403 Forbidden"
    = sanitizeMessage Examples.secrets
        (lit "GET" +++ lit " " +++ lit "/storage" +++ lit " failed: " +++
         failure_detail response).
Proof.
  apply request_status_code_iff_failure_status. vm_compute. reflexivity.
Defined.

(** Under the same assumption the message of every failure is a
    sanitized text. *)
Lemma request_rejection_is_sanitized reg w c method path body err :
  platform_errors_only w (request_url c path) (request_init w c method body)
  = true ->
  request reg w c method path body = Rejected err ->
  exists raw code, err = PveError (sanitizeMessage reg raw) code.
Proof.
  unfold platform_errors_only, request. intros Hp.
  destruct (fetch w (request_url c path) (request_init w c method body))
    as [response|e]; simpl.
  - apply andb_true_iff in Hp as [Hj Ht].
    destruct (ok response) eqn:Hok; simpl.
    + destruct (unwrap response) as [v|e] eqn:Eu; simpl; [discriminate|].
      rewrite (unwrap_rejection _ Hj Ht Eu). intros [= <-]. eauto.
    + intros [= <-]. eauto.
  - apply negb_true_iff in Hp. rewrite Hp. intros [= <-]. eauto.
Qed.

(** X7: under the same proviso, the message of no failure of [request]
    shows a registered secret that cannot overlap an inserted text. *)
Theorem request_failure_hides_secrets
        reg w c method path body message code secret :
  platform_errors_only w (request_url c path) (request_init w c method body)
  = true ->
  In secret reg -> clash_free secret = true ->
  request reg w c method path body = Rejected (PveError message code) ->
  includes message secret = false.
Proof.
  intros Hp Hin Hfree Hr.
  destruct (request_rejection_is_sanitized _ _ _ _ _ _ Hp Hr)
    as [raw [code' [= -> _]]].
  apply sanitize_removes; assumption.
Qed.

Lemma request_failure_hides_secrets_witness :
  includes (lit "GET /storage failed: 403 Forbidden")
           (tokenSecret Examples.config) = false.
Proof.
  apply (@request_failure_hides_secrets Examples.secrets
           (Examples.answering Examples.forbidden) Examples.client
           (lit "GET") (lit "/storage") None
           (lit "GET /storage failed: 403 Forbidden") (Some 403%N)).
  - vm_compute. reflexivity.
  - right. left. reflexivity.
  - vm_compute. reflexivity.
  - vm_compute. reflexivity.
Defined.

(** X8: on success [request] returns the payload exactly as the backend
    sent it, whatever the registry holds: the text of a body that does not
    declare JSON ([null] for the empty text), else the [data] property of
    the parsed value, or the value itself when [data] is [undefined].
    Nothing is redacted, not even a registered secret. *)
Theorem request_payload_is_not_sanitized reg w c method path body response :
  fetch w (request_url c path) (request_init w c method body)
  = Resolved response ->
  ok response = true ->
  (forall t,
      includes (match content_type response with
                | Some h => h
                | None => []
                end) (lit "json") = false ->
      text response = Resolved t ->
      request reg w c method path body
      = Resolved (match t with [] => VNull | _ :: _ => VString t end)) /\
  (forall j d,
      includes (match content_type response with
                | Some h => h
                | None => []
                end) (lit "json") = true ->
      json response = Resolved j ->
      member j (lit "data") = Some d ->
      request reg w c method path body
      = Resolved (if is_undefined d then j else d)).
Proof.
  intros Hf Hok. split.
  - intros t Hc Ht. unfold request. rewrite Hf. simpl. rewrite Hok. simpl.
    unfold unwrap. rewrite Hc, Ht. reflexivity.
  - intros j d Hc Hj Hd. unfold request. rewrite Hf. simpl. rewrite Hok.
    simpl. unfold unwrap, read. rewrite Hc, Hj. simpl. rewrite Hd. simpl.
    destruct (is_undefined d); reflexivity.
Qed.

Lemma request_payload_witness :
  In (tokenSecret Examples.config) Examples.secrets /\
  includes (lit "token 5c1f7d2e-3b4a-4c6d-8e9f-0a1b2c3d4e5f is valid")
           (tokenSecret Examples.config) = true /\
  get Examples.secrets (Examples.answering Cases.secret_page)
      Examples.client (lit "/access/ticket")
  = Resolved
      (VString (lit "token 5c1f7d2e-3b4a-4c6d-8e9f-0a1b2c3d4e5f is valid")) /\
  get Examples.secrets (Examples.answering Cases.secret_envelope)
      Examples.client (lit "/access/ticket")
  = Resolved
      (VObject
         [(lit "secret",
           VString (lit "5c1f7d2e-3b4a-4c6d-8e9f-0a1b2c3d4e5f"))]).
Proof.
  split; [right; left; reflexivity|]. split; [reflexivity|]. split.
  - exact (proj1 (@request_payload_is_not_sanitized Examples.secrets
                    (Examples.answering Cases.secret_page) Examples.client
                    (lit "GET") (lit "/access/ticket") None
                    Cases.secret_page eq_refl eq_refl)
                 _ eq_refl eq_refl).
  - exact (proj2 (@request_payload_is_not_sanitized Examples.secrets
                    (Examples.answering Cases.secret_envelope)
                    Examples.client (lit "GET") (lit "/access/ticket") None
                    Cases.secret_envelope eq_refl eq_refl)
                 _ _ eq_refl eq_refl eq_refl).
Defined.

(** The texts of the entries of an error body: all of them when every
    value converts to a string, none when one does not. *)
Lemma entry_texts_convert l :
  forallb (fun kv => converts (snd kv)) l = true ->
  map_throwing entry_text l
  = Resolved (map (fun kv => fst kv +++ lit ": " +++ string_of (snd kv)) l).
Proof.
  induction l as [|kv l IH]; [reflexivity|]. simpl.
  intros H. apply andb_true_iff in H as [Hkv Hl].
  unfold entry_text at 1, to_string. rewrite Hkv. simpl.
  rewrite (IH Hl). reflexivity.
Qed.

Lemma entry_texts_throw l :
  forallb (fun kv => converts (snd kv)) l = false ->
  exists err, map_throwing entry_text l = Rejected err.
Proof.
  induction l as [|kv l IH]; [discriminate|]. simpl.
  unfold entry_text at 1, to_string.
  destruct (converts (snd kv)); simpl.
  - intros Hl. destruct (IH Hl) as [err ->]. simpl. eauto.
  - intros _. eauto.
Qed.

(** X9: the detail of a failure is [<status> <statusText>], followed,
    when the body parses to a value whose [errors] is truthy and all
    values of [errors] convert to strings, by the dash and the entries of
    [errors] as [<field>: <message>] joined by commas; in every other
    case it is the status line alone. *)
Theorem failure_detail_is_status_line_and_messages response :
  (forall errBody errors,
      json response = Resolved errBody ->
      member errBody (lit "errors") = Some errors ->
      truthy errors = true ->
      forallb (fun kv => converts (snd kv)) (entries errors) = true ->
      failure_detail response
      = status_line response +++ lit " " +++ emdash +++ lit " " +++
        join (lit ", ")
             (map (fun kv => fst kv +++ lit ": " +++ string_of (snd kv))
                  (entries errors))) /\
  ((forall errBody errors,
       json response = Resolved errBody ->
       member errBody (lit "errors") = Some errors ->
       truthy errors = false \/
       forallb (fun kv => converts (snd kv)) (entries errors) = false) ->
   failure_detail response = status_line response).
Proof.
  unfold failure_detail, status_line, error_messages, read. split.
  - intros errBody errors Hj Hm Ht Hc. rewrite Hj. simpl. rewrite Hm. simpl.
    rewrite Ht, (entry_texts_convert _ Hc). simpl.
    rewrite <- !app_assoc. reflexivity.
  - intros Hother. destruct (json response) as [errBody|err]; simpl;
      [|reflexivity].
    destruct (member errBody (lit "errors")) as [errors|] eqn:Hm; simpl;
      [|reflexivity].
    destruct (Hother errBody errors eq_refl Hm) as [Ht|Hc].
    + rewrite Ht. reflexivity.
    + destruct (truthy errors); [|reflexivity].
      destruct (entry_texts_throw _ Hc) as [err ->]. reflexivity.
Qed.

Lemma failure_detail_witness :
  failure_detail Cases.bad_parameters
  = lit "400 Bad Request " +++ emdash +++
    lit " vmid: invalid format, node: no such node" /\
  failure_detail Cases.odd_errors = lit "400 Bad Request" /\
  failure_detail Examples.forbidden = lit "403 Forbidden".
Proof.
  split; [|split].
  - exact (proj1 (failure_detail_is_status_line_and_messages
                    Cases.bad_parameters)
                 _ _ eq_refl eq_refl eq_refl eq_refl).
  - apply (proj2 (failure_detail_is_status_line_and_messages
                    Cases.odd_errors)).
    intros errBody errors Hj Hm. injection Hj as <-. injection Hm as <-.
    right. reflexivity.
  - apply (proj2 (failure_detail_is_status_line_and_messages
                    Examples.forbidden)).
    intros errBody errors Hj. discriminate.
Defined.

(** The two ways [validateConnection] can end. *)
Lemma validateConnection_cases reg w c :
  (snd (validateConnection reg w c) = Proceed /\
   exists response payload,
     fetch w (version_url c) (version_init c) = Resolved response /\
     ok response = true /\ json response = Resolved payload) \/
  snd (validateConnection reg w c) = Exit 1%N.
Proof.
  unfold validateConnection, client_validateConnection.
  destruct (fetch w (version_url c) (version_init c)) as [response|e]; simpl.
  - destruct ((status response =? 401)%N || (status response =? 403)%N);
      simpl; [auto|].
    destruct (ok response) eqn:Hok; simpl; [|auto].
    destruct (json response) as [payload|e] eqn:Hj; simpl.
    + destruct (read payload (lit "data")) as [data|e]; simpl.
      * destruct (to_string (optional_member data (lit "version") _))
          as [version_text|e]; simpl.
        -- destruct (if truthy (optional_member data (lit "release") _)
                     then _ else _) as [release_text|e]; simpl.
           ++ left. split; [reflexivity|]. exists response, payload. auto.
           ++ destruct (instanceof_PveError e); auto.
        -- destruct (instanceof_PveError e); auto.
      * destruct (instanceof_PveError e); auto.
    + destruct (instanceof_PveError e); auto.
  - destruct (instanceof_PveError e); auto.
Qed.

(** X10: startup goes on only when the version endpoint answered with
    a status in 200..299 and a body that parses as JSON; in every other
    case the process exits, and the exit code is 1. *)
Theorem validateConnection_proceeds_only_on_success reg w c :
  (snd (validateConnection reg w c) = Proceed ->
   exists response payload,
     fetch w (version_url c) (version_init c) = Resolved response /\
     ok response = true /\ json response = Resolved payload) /\
  (forall code, snd (validateConnection reg w c) = Exit code -> code = 1%N).
Proof.
  destruct (validateConnection_cases reg w c) as [[Hp Hanswer]|Hexit].
  - split.
    + intros _. exact Hanswer.
    + intros code Hcode. rewrite Hp in Hcode. discriminate.
  - split.
    + intros Hp. rewrite Hexit in Hp. discriminate.
    + intros code Hcode. rewrite Hexit in Hcode. injection Hcode as <-.
      reflexivity.
Qed.

(* ===================================================================== *)
(** * The registration gate: what a registration does to the server *)
(* ===================================================================== *)

Section GateMore.

Lemma registerTool_result server config options :
  accepted (registerTool server config options) = passes config options /\
  server_after (registerTool server config options)
  = server ++ (if passes config options then [registration options] else []).
Proof.
  unfold registerTool, passes, passes_with, accepted, server_after.
  destruct (_ <? _)%N; simpl; [rewrite app_nil_r; auto|].
  destruct (categories config) as [allowed|]; simpl.
  - destruct (array_includes allowed _); simpl; [auto|].
    rewrite app_nil_r. auto.
  - auto.
Qed.

End GateMore.

(** X11: a process with a tier at least as high and a category list
    that is absent or at least as wide accepts every tool the other
    accepts. *)
Theorem registerTool_is_monotone server server' config config' options :
  (TIER_LEVELS (accessTier config) <= TIER_LEVELS (accessTier config'))%N ->
  (categories config' = None \/
   exists allowed allowed',
     categories config = Some allowed /\ categories config' = Some allowed' /\
     incl allowed allowed') ->
  accepted (registerTool server config options) = true ->
  accepted (registerTool server' config' options) = true.
Proof.
  intros Ht Hc.
  rewrite !(proj1 (registerTool_result _ _ _)). unfold passes, passes_with.
  intros H. apply andb_true_iff in H as [H1 H2]. apply andb_true_iff. split.
  - apply negb_true_iff, N.ltb_ge. apply negb_true_iff, N.ltb_ge in H1. lia.
  - destruct Hc as [-> | (allowed & allowed' & Ha & -> & Hincl)];
      [reflexivity|].
    rewrite Ha in H2. apply array_includes_In. apply array_includes_In in H2.
    apply Hincl, H2.
Qed.

Lemma registerTool_is_monotone_witness :
  accepted (registerTool [] (Examples.process full None)
              (Examples.storage_tool Examples.throws_error)) = true.
Proof.
  apply (@registerTool_is_monotone []  []
           (Examples.process read_only (Some [lit "storage"]))).
  - vm_compute. discriminate.
  - left. reflexivity.
  - vm_compute. reflexivity.
Defined.

(** X12: a rejected registration leaves the server as it was; an
    accepted one adds one tool at the end, with the name, description and
    input schema of the options, and removes or reorders nothing. *)
Theorem registerTool_only_appends server config options :
  exists added,
    server_after (registerTool server config options) = server ++ added /\
    (accepted (registerTool server config options) = false -> added = []) /\
    (accepted (registerTool server config options) = true ->
     exists tool,
       added = [tool] /\ tool_name tool = name options /\
       config_description (tool_config tool) = description options /\
       config_inputSchema (tool_config tool) = inputSchema options).
Proof.
  destruct (registerTool_result server config options) as [-> ->].
  destruct (passes config options).
  - exists [registration options]. split; [reflexivity|].
    split; [discriminate|]. intros _. eexists. repeat split.
  - exists []. split; [reflexivity|]. split; [reflexivity|discriminate].
Qed.

(** X13: the annotations of a registered tool always have the
    properties [readOnlyHint] and [destructiveHint].  The value of each is
    the one the options write for it, [undefined] included; where the
    options leave the property out, [readOnlyHint] says whether the tier
    of the tool is [read-only] and [destructiveHint] is [false]. *)
Theorem registered_tool_hints server config options :
  accepted (registerTool server config options) = true ->
  exists tool,
    server_after (registerTool server config options) = server ++ [tool] /\
    own_readOnlyHint (config_annotations (tool_config tool))
    = given (hint_or (annotations options) own_readOnlyHint
               (match tool_accessTier options with
                | read_only => true
                | _ => false
                end)) /\
    own_destructiveHint (config_annotations (tool_config tool))
    = given (hint_or (annotations options) own_destructiveHint false).
Proof.
  destruct (registerTool_result server config options) as [-> ->].
  intros ->. exists (registration options). split; [reflexivity|].
  unfold registration, merge_annotations, hint_or. simpl.
  destruct (annotations options) as [a|]; simpl; [|auto].
  destruct (own_readOnlyHint a), (own_destructiveHint a); auto.
Qed.

Lemma registered_tool_hints_witness :
  (exists tool,
      server_after (registerTool [] Examples.config Cases.unhinted_tool)
      = [] ++ [tool] /\
      own_readOnlyHint (config_annotations (tool_config tool))
      = given (Some false) /\
      own_destructiveHint (config_annotations (tool_config tool))
      = given None) /\
  (exists tool,
      server_after (registerTool [] Examples.config
                      (Examples.storage_tool Examples.throws_error))
      = [] ++ [tool] /\
      own_readOnlyHint (config_annotations (tool_config tool))
      = given (Some true) /\
      own_destructiveHint (config_annotations (tool_config tool))
      = given (Some false)).
Proof.
  split.
  - exact (@registered_tool_hints [] Examples.config Cases.unhinted_tool
             eq_refl).
  - exact (@registered_tool_hints [] Examples.config
             (Examples.storage_tool Examples.throws_error) eq_refl).
Defined.

(** X14: the executor never throws and answers with exactly one text
    item; the result is flagged as an error exactly when the handler
    threw, and on a normal return the text is the handler's, not
    sanitized. *)
Theorem wrapped_executor_result options reg args :
  exists text flag,
    wrapped_executor options reg args
    = Resolved
        {| content := [{| type := lit "text"; content_text := text |}];
           isError := flag |} /\
    (flag = Some true <-> exists err, handler options args = Rejected err) /\
    (flag = None <-> exists result, handler options args = Resolved result) /\
    (forall result, handler options args = Resolved result -> text = result).
Proof.
  unfold wrapped_executor.
  destruct (handler options args) as [result|err]; simpl.
  - exists result, None. split; [reflexivity|]. repeat split.
    + discriminate.
    + intros [e H]. discriminate.
    + eauto.
    + intros r [= <-]. reflexivity.
  - eexists. exists (Some true). split; [reflexivity|]. repeat split.
    + eauto.
    + discriminate.
    + intros [r H]. discriminate.
    + discriminate.
Qed.

(** X15: when the handler throws an [Error], the text returned to the
    caller shows no registered secret that cannot overlap an inserted
    text. *)
Theorem failure_result_hides_secrets options reg args err secret :
  handler options args = Rejected err ->
  instanceof_Error err = true ->
  In secret reg -> clash_free secret = true ->
  exists text,
    wrapped_executor options reg args = Resolved (failure_result text) /\
    includes text secret = false.
Proof.
  intros Hh He Hin Hfree. unfold wrapped_executor. rewrite Hh. simpl.
  destruct err as [m code|n m|v]; try discriminate;
    (eexists; split; [reflexivity|apply sanitize_removes; assumption]).
Qed.

Lemma failure_result_hides_secrets_witness :
  exists text,
    wrapped_executor (Examples.storage_tool Examples.throws_error)
      Examples.secrets VNull
    = Resolved (failure_result text) /\
    includes text (tokenSecret Examples.config) = false.
Proof.
  apply (@failure_result_hides_secrets
           (Examples.storage_tool Examples.throws_error) Examples.secrets
           VNull (OtherError (lit "Error") Examples.leaking_message)).
  - reflexivity.
  - reflexivity.
  - right. left. reflexivity.
  - vm_compute. reflexivity.
Defined.

(* ===================================================================== *)
(** * The loader: reading the environment *)
(* ===================================================================== *)

Section ConfigMore.

Lemma drop_while_blank a s :
  blank a = true -> drop_while is_space (a ++ s) = drop_while is_space s.
Proof.
  unfold blank. induction a as [|x a IH]; simpl; [reflexivity|].
  intros H. apply andb_true_iff in H as [-> H]. auto.
Qed.

Lemma blank_rev a : blank a = true -> blank (rev a) = true.
Proof.
  unfold blank. rewrite !forallb_forall. intros H x Hx.
  apply H, in_rev, Hx.
Qed.

(** [trim] takes the white space off both ends of a text whose first and
    last code units are not white space. *)
Lemma trim_padded a s b :
  blank a = true -> blank b = true ->
  boundary s = false -> boundary (rev s) = false ->
  Config.trim (a ++ s ++ b) = s.
Proof.
  intros Ha Hb Hs Hr. unfold Config.trim.
  rewrite drop_while_blank by exact Ha.
  assert (H1 : drop_while is_space (s ++ b) = s ++ b).
  { destruct s as [|x s]; [discriminate|]. simpl in *. rewrite Hs. reflexivity. }
  rewrite H1, rev_app_distr.
  rewrite drop_while_blank by (apply blank_rev; exact Hb).
  assert (H2 : drop_while is_space (rev s) = rev s).
  { destruct (rev s) as [|x t]; [discriminate|]. simpl in *. rewrite Hr.
    reflexivity. }
  rewrite H2. apply rev_involutive.
Qed.

Lemma free_of_app sep a b :
  free_of sep (a ++ b) = free_of sep a && free_of sep b.
Proof. apply forallb_app. Qed.

Lemma split_no_sep sep s :
  free_of sep s = true -> split sep s = [s].
Proof.
  unfold free_of. induction s as [|c s IH]; simpl; [reflexivity|].
  intros H. apply andb_true_iff in H as [Hc H]. apply negb_true_iff in Hc.
  rewrite Hc, (IH H). reflexivity.
Qed.

Lemma split_app sep s rest :
  free_of sep s = true ->
  split sep (s ++ sep :: rest) = s :: split sep rest.
Proof.
  unfold free_of. induction s as [|c s IH]; simpl.
  - rewrite N.eqb_refl. reflexivity.
  - intros H. apply andb_true_iff in H as [Hc H]. apply negb_true_iff in Hc.
    rewrite Hc, (IH H). reflexivity.
Qed.

(** Splitting what [join] put together gives the parts back, when no part
    holds the separator. *)
Lemma split_join sep parts :
  parts <> [] ->
  Forall (fun s => free_of sep s = true) parts ->
  split sep (join [sep] parts) = parts.
Proof.
  induction parts as [|x parts IH]; [congruence|]. intros _ H.
  inversion H as [|? ? Hx Hrest]; subst.
  destruct parts as [|y parts]; [apply split_no_sep, Hx|].
  change (join [sep] (x :: y :: parts))
    with (x ++ [sep] ++ join [sep] (y :: parts)).
  simpl app. rewrite split_app by exact Hx. f_equal. apply IH; [discriminate|].
  exact Hrest.
Qed.

Lemma blank_no_comma a :
  blank a = true -> free_of 44%N a = true.
Proof.
  unfold blank, free_of. rewrite !forallb_forall. intros H x Hx.
  specialize (H x Hx). destruct (N.eqb_spec x 44); [subst; discriminate|].
  reflexivity.
Qed.

Lemma name_facts c :
  free_of 44%N (ToolCategory_name c) = true /\
  boundary (ToolCategory_name c) = false /\
  boundary (rev (ToolCategory_name c)) = false /\
  is_valid_category (ToolCategory_name c) = true.
Proof. destruct c; repeat split. Qed.

Lemma padded_facts item :
  blank (fst (fst item)) = true -> blank (snd item) = true ->
  free_of 44%N (padded item) = true /\
  Config.trim (padded item) = ToolCategory_name (snd (fst item)).
Proof.
  intros Ha Hb. destruct (name_facts (snd (fst item))) as (H1 & H2 & H3 & _).
  split.
  - unfold padded. rewrite !free_of_app, H1.
    rewrite (blank_no_comma _ Ha), (blank_no_comma _ Hb). reflexivity.
  - apply trim_padded; assumption.
Qed.

Lemma is_valid_category_names c :
  is_valid_category c = true <-> exists cat, c = ToolCategory_name cat.
Proof.
  unfold is_valid_category. rewrite array_includes_In, in_map_iff. split.
  - intros [cat [<- _]]. eauto.
  - intros [cat ->]. exists cat. split; [reflexivity|].
    destruct cat; simpl; tauto.
Qed.

Lemma strip_cons c s :
  strip_trailing_slashes (c :: s)
  = if forallb is_slash (c :: s) then [] else c :: strip_trailing_slashes s.
Proof. reflexivity. Qed.

Lemma strip_decompose s :
  exists slashes,
    s = strip_trailing_slashes s ++ slashes /\
    forallb is_slash slashes = true /\
    ends_with_slash (strip_trailing_slashes s) = false.
Proof.
  induction s as [|c s (slashes & Hs & Hall & Hend)].
  - exists []. repeat split.
  - rewrite strip_cons.
    destruct (forallb is_slash (c :: s)) eqn:E.
    + exists (c :: s). repeat split. exact E.
    + exists slashes. split; [simpl; congruence|]. split; [exact Hall|].
      unfold ends_with_slash in *. simpl rev.
      destruct (rev (strip_trailing_slashes s)) as [|x t] eqn:Er.
      * simpl. destruct (is_slash c) eqn:Ec; [|reflexivity].
        apply (f_equal (@rev _)) in Er. rewrite rev_involutive in Er.
        simpl in Er. rewrite Er in Hs. simpl in Hs. subst s.
        simpl in E. rewrite Ec, Hall in E. discriminate.
      * simpl. exact Hend.
Qed.

End ConfigMore.

(** X16: [parseAccessTier] reads back the name of every tier, and
    gives [full] for every other value and when the variable is not
    set. *)
Theorem parseAccessTier_reads_tier_names env :
  (forall tier,
      PVE_ACCESS_TIER env = Some (AccessTier_name tier) ->
      parseAccessTier env = tier) /\
  ((forall tier, PVE_ACCESS_TIER env <> Some (AccessTier_name tier)) ->
   parseAccessTier env = full).
Proof.
  unfold parseAccessTier. split.
  - intros tier ->. destruct tier; reflexivity.
  - intros H. destruct (PVE_ACCESS_TIER env) as [t|]; [|reflexivity].
    destruct (JsString.eqb t (lit "read-only")) eqn:E1.
    + apply eqb_eq in E1. subst t. destruct (H read_only). reflexivity.
    + destruct (JsString.eqb t (lit "read-execute")) eqn:E2; [|reflexivity].
      apply eqb_eq in E2. subst t. destruct (H read_execute). reflexivity.
Qed.

(** X17: a category list [parseCategories] returns is not empty and
    names known categories only. *)
Theorem parseCategories_names_known_categories value allowed :
  snd (parseCategories value) = Some allowed ->
  allowed <> [] /\
  forall c, In c allowed -> exists cat, c = ToolCategory_name cat.
Proof.
  unfold parseCategories. destruct value as [[|x v]|]; try discriminate.
  cbv zeta. unfold snd.
  destruct (filter is_valid_category _) as [|y l] eqn:E; [discriminate|].
  simpl. intros [= <-]. split; [discriminate|].
  intros c Hc. rewrite <- E in Hc. apply filter_In in Hc as [_ Hc].
  apply is_valid_category_names, Hc.
Qed.

Lemma parseCategories_names_known_categories_witness :
  [lit "qemu"] <> [] /\
  forall c, In c [lit "qemu"] -> exists cat, c = ToolCategory_name cat.
Proof.
  apply (@parseCategories_names_known_categories (Some (lit " qemu , bogus"))).
  vm_compute. reflexivity.
Defined.

(** X18: a comma-separated list of category names, each with any
    white space around it, is read back as these names, in order and
    without a warning. *)
Theorem parseCategories_reads_names_back items :
  items <> [] ->
  (forall item, In item items ->
                blank (fst (fst item)) = true /\ blank (snd item) = true) ->
  parseCategories (Some (join (lit ",") (map padded items)))
  = ([], Some (map (fun item => ToolCategory_name (snd (fst item))) items)).
Proof.
  intros Hne Hblank.
  set (names := map (fun item => ToolCategory_name (snd (fst item))) items).
  assert (Hsplit : split 44%N (join (lit ",") (map padded items))
                   = map padded items).
  { apply (@split_join 44%N).
    - destruct items; [congruence|discriminate].
    - apply Forall_forall. intros s Hs. apply in_map_iff in Hs as [item [<- Hi]].
      destruct (Hblank _ Hi). apply padded_facts; assumption. }
  assert (Htrim : map Config.trim (map padded items) = names).
  { unfold names. rewrite map_map. apply map_ext_in. intros item Hi.
    destruct (Hblank _ Hi). apply padded_facts; assumption. }
  assert (Hlen : @filter (list JsString.char)
                   (fun s : list JsString.char => 0 <? length s) names
                 = names).
  { apply forallb_filter_id. apply forallb_forall. intros s Hs.
    apply in_map_iff in Hs as [item [<- _]].
    destruct (snd (fst item)); reflexivity. }
  assert (Hvalid : forallb is_valid_category names = true).
  { apply forallb_forall. intros s Hs. apply in_map_iff in Hs as [item [<- _]].
    apply name_facts. }
  assert (Hjoin : exists x v, join (lit ",") (map padded items) = x :: v).
  { destruct (join (lit ",") (map padded items)) as [|x v] eqn:E; [|eauto].
    simpl in Hsplit.
    destruct items as [|item items']; [congruence|].
    simpl in Hsplit. injection Hsplit as Hp _.
    destruct (Hblank item (or_introl eq_refl)) as [Ha Hb].
    pose proof (proj2 (padded_facts item Ha Hb)) as Ht.
    rewrite <- Hp in Ht. destruct (snd (fst item)); discriminate. }
  destruct Hjoin as (x & v & Hj).
  unfold parseCategories. rewrite Hj. cbv beta iota zeta.
  rewrite <- Hj, Hsplit, Htrim, Hlen.
  rewrite (forallb_filter_id _ _ Hvalid).
  assert (Hinv : filter (fun c => negb (is_valid_category c)) names = []).
  { clear - Hvalid. induction names as [|n l IH]; [reflexivity|].
    simpl in *. apply andb_true_iff in Hvalid as [-> H]. simpl. auto. }
  rewrite Hinv. simpl.
  destruct names eqn:En; [|reflexivity].
  unfold names in En. destruct items; [congruence|discriminate].
Qed.

Lemma parseCategories_reads_names_back_witness :
  parseCategories (Some (lit " qemu,lxc" +++ [9%N; 32%N]))
  = ([], Some [lit "qemu"; lit "lxc"]).
Proof.
  apply (parseCategories_reads_names_back (items := Cases.category_entries)).
  - discriminate.
  - intros item [<- | [<- | []]]; split; reflexivity.
Defined.

Lemma ends_with_slash_app s slashes :
  slashes <> [] -> forallb is_slash slashes = true ->
  ends_with_slash (s ++ slashes) = true.
Proof.
  intros Hne Hall. unfold ends_with_slash. rewrite rev_app_distr.
  destruct (rev slashes) as [|x t] eqn:E.
  - apply (f_equal (@rev _)) in E. rewrite rev_involutive in E. contradiction.
  - simpl. rewrite forallb_forall in Hall. apply Hall, in_rev.
    rewrite E. left. reflexivity.
Qed.

(** X19: [replace(/\/+$/, ...)] in [loadConfig] takes off exactly the
    slashes at the end of the base address: the text is what is left
    followed by slashes only, what is left does not end with a slash, and
    a text that does not end with a slash is left as it is. *)
Theorem strip_trailing_slashes_removes_trailing_slashes s :
  (exists slashes,
      s = strip_trailing_slashes s +++ slashes /\
      forallb is_slash slashes = true) /\
  ends_with_slash (strip_trailing_slashes s) = false /\
  (ends_with_slash s = false -> strip_trailing_slashes s = s).
Proof.
  destruct (strip_decompose s) as (slashes & Hs & Hall & Hend).
  split; [exists slashes; auto|]. split; [exact Hend|].
  intros Hno. destruct slashes as [|x l].
  - rewrite app_nil_r in Hs. congruence.
  - rewrite Hs, ends_with_slash_app in Hno; [discriminate|discriminate|].
    exact Hall.
Qed.

Lemma unset_false v : unset v = false -> exists x s, v = Some (x :: s).
Proof. destruct v as [[|x s]|]; try discriminate. eauto. Qed.

Lemma loadConfig_cases env :
  (missing_variables env = [] /\
   unset (PVE_BASE_URL env) = false /\ unset (PVE_TOKEN_ID env) = false /\
   unset (PVE_TOKEN_SECRET env) = false) \/
  (exists x l, missing_variables env = x :: l /\
   (unset (PVE_BASE_URL env) = true \/ unset (PVE_TOKEN_ID env) = true \/
    unset (PVE_TOKEN_SECRET env) = true)).
Proof.
  unfold missing_variables.
  destruct (unset (PVE_BASE_URL env)), (unset (PVE_TOKEN_ID env)),
    (unset (PVE_TOKEN_SECRET env)); simpl; eauto 10.
Qed.

(** X20: the configuration loads exactly when the three required
    variables are set and not empty; otherwise [loadConfig] throws. *)
Theorem loadConfig_loads_iff_required_set env :
  (exists config, snd (loadConfig env) = Resolved config) <->
  unset (PVE_BASE_URL env) = false /\ unset (PVE_TOKEN_ID env) = false /\
  unset (PVE_TOKEN_SECRET env) = false.
Proof.
  unfold loadConfig.
  destruct (loadConfig_cases env) as [(-> & H1 & H2 & H3)|(x & l & -> & H)].
  - simpl. split; [auto|]. intros _. eauto.
  - simpl. split.
    + intros [config Hc]. discriminate.
    + intros (H1 & H2 & H3). destruct H as [H|[H|H]]; congruence.
Qed.

(** What a loaded configuration holds. *)
Lemma loadConfig_loaded env config :
  snd (loadConfig env) = Resolved config ->
  (exists x s, PVE_TOKEN_ID env = Some (x :: s) /\ tokenId config = x :: s) /\
  (exists x s,
      PVE_TOKEN_SECRET env = Some (x :: s) /\ tokenSecret config = x :: s) /\
  baseUrl config = strip_trailing_slashes (the (PVE_BASE_URL env)) /\
  verifySsl config
  = negb (match PVE_VERIFY_SSL env with
          | Some v => JsString.eqb v (lit "false")
          | None => false
          end).
Proof.
  unfold loadConfig.
  destruct (loadConfig_cases env) as [(-> & H1 & H2 & H3)|(x & l & -> & H)];
    [|discriminate].
  simpl. intros [= <-]. simpl.
  apply unset_false in H2 as (x2 & s2 & ->).
  apply unset_false in H3 as (x3 & s3 & ->). simpl.
  repeat split; eauto.
Qed.

(** X21: in a loaded configuration the credentials are those of the
    environment and are not empty, the base address does not end with a
    slash, the client's API base is that address followed by
    [/api2/json], and [createClient] registers exactly the two
    credentials as secrets. *)
Theorem loaded_config_registers_both_credentials env config :
  snd (loadConfig env) = Resolved config ->
  PVE_TOKEN_ID env = Some (tokenId config) /\
  PVE_TOKEN_SECRET env = Some (tokenSecret config) /\
  tokenId config <> [] /\ tokenSecret config <> [] /\
  ends_with_slash (baseUrl config) = false /\
  apiBase (snd (createClient config SENSITIVE_PATTERNS))
  = strip_trailing_slashes (the (PVE_BASE_URL env)) +++ lit "/api2/json" /\
  fst (createClient config SENSITIVE_PATTERNS)
  = [tokenId config; tokenSecret config].
Proof.
  intros Hl.
  destruct (loadConfig_loaded _ Hl)
    as ((x2 & s2 & Hid & Hid') & (x3 & s3 & Hsec & Hsec') & Hbase & _).
  rewrite Hid, Hsec. unfold createClient. simpl. rewrite Hid', Hsec', Hbase.
  repeat split; try discriminate.
  destruct (strip_decompose (the (PVE_BASE_URL env))) as (? & _ & _ & Hend).
  exact Hend.
Qed.

Lemma loaded_config_witness :
  exists config,
    snd (loadConfig Cases.environment) = Resolved config /\
    baseUrl config = lit "https://pve.example:8006" /\
    ends_with_slash (baseUrl config) = false /\
    fst (createClient config SENSITIVE_PATTERNS)
    = [tokenId config; tokenSecret config].
Proof.
  eexists. split; [reflexivity|]. split; [vm_compute; reflexivity|].
  pose proof (@loaded_config_registers_both_credentials Cases.environment _
                eq_refl) as H.
  split; apply H.
Defined.

(** X22: the error of a failed load depends only on which required
    variables are missing, not on the value of any variable: it shows no
    credential. *)
Theorem loadConfig_error_shows_no_value env env' err :
  unset (PVE_BASE_URL env') = unset (PVE_BASE_URL env) ->
  unset (PVE_TOKEN_ID env') = unset (PVE_TOKEN_ID env) ->
  unset (PVE_TOKEN_SECRET env') = unset (PVE_TOKEN_SECRET env) ->
  snd (loadConfig env) = Rejected err ->
  loadConfig env' = ([], Rejected err).
Proof.
  intros H1 H2 H3. unfold loadConfig.
  assert (Hm : missing_variables env' = missing_variables env).
  { unfold missing_variables. rewrite H1, H2, H3. reflexivity. }
  rewrite Hm. destruct (0 <? length (missing_variables env)); simpl.
  - intros [= <-]. reflexivity.
  - discriminate.
Qed.

Lemma loadConfig_error_shows_no_value_witness :
  loadConfig Cases.other_bare_environment
  = ([],
     Rejected
       (OtherError (lit "Error")
          (lit "Missing required environment variables: PVE_TOKEN_ID, PVE_TOKEN_SECRET. Set these variables to connect to your Proxmox VE instance."))).
Proof.
  apply (@loadConfig_error_shows_no_value Cases.bare_environment);
    vm_compute; reflexivity.
Defined.

(* ===================================================================== *)
(** * The catalog of tools and startup *)
(* ===================================================================== *)

Section CatalogMore.

Lemma distinct_NoDup l : distinct l = true -> NoDup l.
Proof.
  induction l as [|x l IH]; simpl; [constructor|].
  intros H. apply andb_true_iff in H as [Hx Hl]. constructor; [|auto].
  intros Hin. apply array_includes_In in Hin. rewrite Hin in Hx. discriminate.
Qed.

Lemma register_each_server tools server config :
  fst (register_each tools server config)
  = server ++ map registration (filter (passes config) tools).
Proof.
  unfold register_each.
  assert (H : forall state,
             fst (fold_left
                    (fun state options =>
                       let r := registerTool (fst state) config options in
                       (server_after r, snd state ++ [snd r]))
                    tools state)
             = fst state ++ map registration (filter (passes config) tools)).
  { induction tools as [|o tools IH]; intros state; simpl.
    - symmetry. apply app_nil_r.
    - rewrite IH. simpl.
      rewrite (proj2 (registerTool_result (fst state) config o)).
      destruct (passes config o); simpl.
      + rewrite <- app_assoc. reflexivity.
      + rewrite app_nil_r. reflexivity. }
  apply H.
Qed.

Lemma then_register_server tools config state :
  fst (then_register (register_each tools) config state)
  = fst state ++ map registration (filter (passes config) tools).
Proof. unfold then_register. simpl. apply register_each_server. Qed.

Lemma registerAllTools_server h server config :
  fst (registerAllTools h server config)
  = server ++ map registration (filter (passes config) (all_tools h)).
Proof.
  unfold registerAllTools, registerNodeTools, registerQemuTools,
    registerLxcTools, registerStorageTools, registerClusterTools,
    registerAccessTools, registerPoolTools, registerNetworkTools,
    registerFirewallTools, registerBackupTools, registerTaskTools,
    registerHaTools, all_tools.
  cbv zeta. rewrite !then_register_server, register_each_server.
  rewrite !filter_app, !map_app, <- !app_assoc. reflexivity.
Qed.

Lemma registered_names h config :
  map tool_name (fst (registerAllTools h [] config))
  = map name (filter (passes config) (all_tools h)).
Proof.
  rewrite registerAllTools_server, app_nil_l, map_map. reflexivity.
Qed.

Lemma NoDup_map_filter {A B : Type} (f : A -> B) (p : A -> bool) l :
  NoDup (map f l) -> NoDup (map f (filter p l)).
Proof.
  induction l as [|x l IH]; simpl; [auto|].
  intros H. inversion H as [|? ? Hx Hl]; subst.
  destruct (p x); simpl; [|auto]. constructor; [|auto].
  intros Hin. apply Hx. apply in_map_iff in Hin as [y [Hy Hin]].
  apply filter_In in Hin as [Hin _]. apply in_map_iff. eauto.
Qed.

End CatalogMore.

(** X23: [registerAllTools] registers exactly the tools of the twelve
    modules that pass the tier and category tests, in the order of the
    modules, each under its own name and with the wrapped executor of its
    handler; tools already on the server stay in front. *)
Theorem registerAllTools_registers_passing_tools h server config :
  fst (registerAllTools h server config)
  = server ++ map registration (filter (passes config) (all_tools h)).
Proof.
  unfold registerAllTools, registerNodeTools, registerQemuTools,
    registerLxcTools, registerStorageTools, registerClusterTools,
    registerAccessTools, registerPoolTools, registerNetworkTools,
    registerFirewallTools, registerBackupTools, registerTaskTools,
    registerHaTools, all_tools.
  cbv zeta. rewrite !then_register_server, register_each_server.
  rewrite !filter_app, !map_app, <- !app_assoc. reflexivity.
Qed.

(** X24: without a category list a [read-only] process registers 51
    tools, a [read-execute] process 68 and a [full] process 105. *)
Theorem registered_tool_counts h config :
  categories config = None ->
  length (fst (registerAllTools h [] config))
  = match accessTier config with
    | read_only => 51
    | read_execute => 68
    | full => 105
    end.
Proof.
  intros Hc. rewrite registerAllTools_server, app_nil_l.
  rewrite length_map. unfold passes. rewrite Hc.
  destruct (accessTier config); vm_compute; reflexivity.
Qed.

Lemma registered_tool_counts_witness :
  length (fst (registerAllTools Cases.idle [] (Examples.process read_only None)))
  = 51 /\
  length (fst (registerAllTools Cases.idle []
                 (Examples.process read_execute None))) = 68 /\
  length (fst (registerAllTools Cases.idle [] (Examples.process full None)))
  = 105.
Proof.
  split; [|split].
  - exact (@registered_tool_counts Cases.idle
             (Examples.process read_only None) eq_refl).
  - exact (@registered_tool_counts Cases.idle
             (Examples.process read_execute None) eq_refl).
  - exact (@registered_tool_counts Cases.idle
             (Examples.process full None) eq_refl).
Defined.

(** X25: whatever the configuration, no two registered tools have the
    same name. *)
Theorem registered_tool_names_are_distinct h config :
  NoDup (map tool_name (fst (registerAllTools h [] config))).
Proof.
  rewrite registered_names. apply NoDup_map_filter.
  apply distinct_NoDup. vm_compute. reflexivity.
Qed.

(** X26: a process that is not [full] registers no tool whose
    [destructiveHint] is [true]: every tool it registers has the hint
    [false]. *)
Theorem destructive_tools_need_full_tier h config :
  accessTier config <> full ->
  Forall (fun tool =>
            destructiveHint (config_annotations (tool_config tool))
            = Some false)
         (fst (registerAllTools h [] config)).
Proof.
  intros Ht. rewrite registerAllTools_server, app_nil_l.
  apply Forall_forall. intros tool Hin.
  apply in_map_iff in Hin as [o [<- Ho]]. apply filter_In in Ho as [Ho Hp].
  assert (Hcat : forallb (fun o => implb (asks_destructive o)
                                         (is_full (tool_accessTier o)))
                         (all_tools h) = true) by (vm_compute; reflexivity).
  rewrite forallb_forall in Hcat. specialize (Hcat _ Ho).
  unfold passes, passes_with in Hp. apply andb_true_iff in Hp as [Hp _].
  assert (Ha : asks_destructive o = false).
  { destruct (asks_destructive o); [|reflexivity]. simpl in Hcat.
    destruct (tool_accessTier o); try discriminate.
    destruct (accessTier config); try discriminate. congruence. }
  unfold registration, merge_annotations, destructiveHint.
  cbn [tool_config config_annotations].
  unfold asks_destructive, hint_or in Ha.
  destruct (annotations o) as [a|]; [|reflexivity].
  cbn [own_destructiveHint spread property_value].
  destruct (own_destructiveHint a) as [|[[|]|]]; try discriminate;
    reflexivity.
Qed.

Lemma destructive_tools_need_full_tier_witness :
  Forall (fun tool =>
            destructiveHint (config_annotations (tool_config tool))
            = Some false)
         (fst (registerAllTools Cases.idle []
                 (Examples.process read_execute None))).
Proof.
  apply destructive_tools_need_full_tier. vm_compute. discriminate.
Defined.

(** X27: every tool a [read-only] process registers has
    [readOnlyHint] [true]. *)
Theorem read_only_process_registers_read_only_tools h config :
  accessTier config = read_only ->
  Forall (fun tool =>
            readOnlyHint (config_annotations (tool_config tool)) = Some true)
         (fst (registerAllTools h [] config)).
Proof.
  intros Ht. rewrite registerAllTools_server, app_nil_l.
  apply Forall_forall. intros tool Hin.
  apply in_map_iff in Hin as [o [<- Ho]]. apply filter_In in Ho as [Ho Hp].
  assert (Hcat : forallb (fun o => implb (is_read_only (tool_accessTier o))
                                         (match annotations o with
                                          | None => true
                                          | Some _ => false
                                          end))
                         (all_tools h) = true) by (vm_compute; reflexivity).
  rewrite forallb_forall in Hcat. specialize (Hcat _ Ho).
  unfold passes, passes_with in Hp. rewrite Ht in Hp.
  apply andb_true_iff in Hp as [Hp _].
  unfold registration, merge_annotations. cbn [tool_config config_annotations].
  destruct (tool_accessTier o); try discriminate.
  simpl in Hcat. destruct (annotations o); [discriminate|]. reflexivity.
Qed.

Lemma read_only_process_witness :
  Forall (fun tool =>
            readOnlyHint (config_annotations (tool_config tool)) = Some true)
         (fst (registerAllTools Cases.idle []
                 (Examples.process read_only (Some [lit "qemu"])))).
Proof.
  apply read_only_process_registers_read_only_tools. reflexivity.
Defined.

Section MainMore.

Variables (env : Env) (w : World) (handlers : PveClient -> Handlers).

(** The three ways [main] can go. *)
Lemma main_cases :
  (exists err,
      snd (loadConfig env) = Rejected err /\
      main env w handlers
      = {| logged := fst (loadConfig env) ++ [(ERROR, message_or_string err)];
           NODE_TLS_REJECT_UNAUTHORIZED := None;
           exit_code := Some 1%N;
           patterns := SENSITIVE_PATTERNS;
           tools := [] |}) \/
  (exists config,
      snd (loadConfig env) = Resolved config /\
      ((exists code,
           snd (validateConnection
                  (fst (createClient config SENSITIVE_PATTERNS)) w
                  (snd (createClient config SENSITIVE_PATTERNS)))
           = Exit code /\
           exit_code (main env w handlers) = Some code /\
           tools (main env w handlers) = []) \/
       (snd (validateConnection
               (fst (createClient config SENSITIVE_PATTERNS)) w
               (snd (createClient config SENSITIVE_PATTERNS)))
        = Proceed /\
        exit_code (main env w handlers) = None /\
        patterns (main env w handlers)
        = fst (createClient config SENSITIVE_PATTERNS) /\
        tools (main env w handlers)
        = fst (registerAllTools
                 (handlers (snd (createClient config SENSITIVE_PATTERNS)))
                 [] config) /\
        NODE_TLS_REJECT_UNAUTHORIZED (main env w handlers)
        = (if negb (verifySsl config) then Some (lit "0") else None)))).
Proof.
  unfold main. destruct (loadConfig env) as [lines [config|err]].
  - right. exists config. split; [reflexivity|]. cbv zeta.
    cbn [fst snd].
    destruct (validateConnection (fst (createClient config SENSITIVE_PATTERNS))
                w (snd (createClient config SENSITIVE_PATTERNS)))
      as [checked [|code]].
    + right. repeat split.
    + left. exists code. repeat split.
  - left. exists err. split; reflexivity.
Qed.

End MainMore.

(** X28: when a required variable is missing, [main] exits with code
    1 after logging one error line; it has registered no secret and no
    tool, and nothing of this depends on the network or on the
    handlers. *)
Theorem main_exits_when_a_variable_is_missing env w handlers :
  unset (PVE_BASE_URL env) = true \/ unset (PVE_TOKEN_ID env) = true \/
  unset (PVE_TOKEN_SECRET env) = true ->
  exit_code (main env w handlers) = Some 1%N /\
  patterns (main env w handlers) = [] /\
  tools (main env w handlers) = [] /\
  (exists message, logged (main env w handlers) = [(ERROR, message)]) /\
  (forall w' handlers', main env w' handlers' = main env w handlers).
Proof.
  intros H.
  assert (Hl : exists err, loadConfig env = ([], Rejected err)).
  { unfold loadConfig.
    destruct (loadConfig_cases env) as [(_ & H1 & H2 & H3)|(x & l & -> & _)].
    - destruct H as [H|[H|H]]; congruence.
    - eexists. reflexivity. }
  destruct Hl as [err Hl].
  assert (Hm : forall w0 h0,
             main env w0 h0
             = {| logged := [(ERROR, message_or_string err)];
                  NODE_TLS_REJECT_UNAUTHORIZED := None;
                  exit_code := Some 1%N;
                  patterns := SENSITIVE_PATTERNS;
                  tools := [] |}).
  { intros w0 h0. unfold main. rewrite Hl. reflexivity. }
  rewrite Hm. split; [reflexivity|]. split; [reflexivity|].
  split; [reflexivity|]. split; [eexists; reflexivity|].
  intros w' h'. apply Hm.
Qed.

Lemma main_exits_when_a_variable_is_missing_witness :
  exit_code (main Cases.bare_environment
               (Examples.answering Cases.version_answer)
               (fun _ => Cases.idle)) = Some 1%N /\
  tools (main Cases.bare_environment
           (Examples.answering Cases.version_answer)
           (fun _ => Cases.idle)) = [].
Proof.
  pose proof (@main_exits_when_a_variable_is_missing Cases.bare_environment
                (Examples.answering Cases.version_answer)
                (fun _ => Cases.idle) (or_intror (or_introl eq_refl)))
    as (H1 & _ & H3 & _).
  split; assumption.
Defined.

(** X29: when the process exits during startup, the exit code is 1
    and no tool has been registered. *)
Theorem main_registers_nothing_on_exit env w handlers code :
  exit_code (main env w handlers) = Some code ->
  code = 1%N /\ tools (main env w handlers) = [].
Proof.
  destruct (main_cases env w handlers)
    as [(err & _ & ->)|(config & _ & [(c & Hv & -> & ->)|(_ & -> & _)])].
  - intros [= <-]. auto.
  - intros [= <-]. split; [|reflexivity].
    destruct (validateConnection_cases
                (fst (createClient config SENSITIVE_PATTERNS)) w
                (snd (createClient config SENSITIVE_PATTERNS)))
      as [[Hp _]|Hexit]; congruence.
  - discriminate.
Qed.

Lemma main_registers_nothing_on_exit_witness :
  1%N = 1%N /\
  tools (main Cases.environment (Examples.answering Examples.forbidden)
           (fun _ => Cases.idle)) = [].
Proof.
  apply (@main_registers_nothing_on_exit Cases.environment
           (Examples.answering Examples.forbidden) (fun _ => Cases.idle)).
  vm_compute. reflexivity.
Defined.

(** X30: when [main] reaches the start of the server, the
    configuration was loaded, the version endpoint had answered with a
    status in 200..299, the registry holds exactly the two credentials,
    the tools are those that pass the tests for the loaded configuration,
    with handlers bound to the client of this configuration, and
    [NODE_TLS_REJECT_UNAUTHORIZED] is [0] exactly when [PVE_VERIFY_SSL]
    is [false]. *)
Theorem main_running_state env w handlers :
  exit_code (main env w handlers) = None ->
  exists config response,
    snd (loadConfig env) = Resolved config /\
    fetch w (version_url (new_PveClient config))
            (version_init (new_PveClient config)) = Resolved response /\
    ok response = true /\
    patterns (main env w handlers) = [tokenId config; tokenSecret config] /\
    tools (main env w handlers)
    = map registration
        (filter (passes config) (all_tools (handlers (new_PveClient config))))
    /\
    (NODE_TLS_REJECT_UNAUTHORIZED (main env w handlers) = Some (lit "0")
     <-> PVE_VERIFY_SSL env = Some (lit "false")).
Proof.
  destruct (main_cases env w handlers)
    as [(err & _ & ->)|(config & Hl &
                        [(c & _ & -> & _)|(Hv & -> & -> & -> & ->)])];
    try discriminate.
  intros _.
  destruct (loadConfig_loaded _ Hl)
    as ((x2 & s2 & _ & Hid) & (x3 & s3 & _ & Hsec) & _ & Hs).
  assert (Hreg : fst (createClient config SENSITIVE_PATTERNS)
                 = [tokenId config; tokenSecret config]).
  { unfold createClient. simpl. rewrite Hid, Hsec. reflexivity. }
  destruct (validateConnection_cases
              (fst (createClient config SENSITIVE_PATTERNS)) w
              (snd (createClient config SENSITIVE_PATTERNS)))
    as [[_ (response & payload & Hf & Hok & _)]|Hexit]; [|congruence].
  exists config, response. split; [exact Hl|]. split; [exact Hf|].
  split; [exact Hok|]. split; [exact Hreg|]. split.
  - rewrite registerAllTools_server. reflexivity.
  - rewrite Hs, negb_involutive.
    destruct (PVE_VERIFY_SSL env) as [v|].
    + destruct (JsString.eqb v (lit "false")) eqn:E.
      * apply eqb_eq in E. subst v. tauto.
      * split; [discriminate|]. intros [= ->]. discriminate.
    + split; discriminate.
Qed.

Lemma main_running_state_witness :
  exists config response,
    snd (loadConfig Cases.environment) = Resolved config /\
    fetch (Examples.answering Cases.version_answer)
      (version_url (new_PveClient config))
      (version_init (new_PveClient config)) = Resolved response /\
    ok response = true /\
    patterns (main Cases.environment
                (Examples.answering Cases.version_answer)
                (fun _ => Cases.idle))
    = [tokenId config; tokenSecret config] /\
    tools (main Cases.environment (Examples.answering Cases.version_answer)
             (fun _ => Cases.idle))
    = map registration
        (filter (passes config) (all_tools Cases.idle)) /\
    (NODE_TLS_REJECT_UNAUTHORIZED
       (main Cases.environment (Examples.answering Cases.version_answer)
          (fun _ => Cases.idle)) = Some (lit "0")
     <-> PVE_VERIFY_SSL Cases.environment = Some (lit "false")).
Proof.
  apply (@main_running_state Cases.environment
           (Examples.answering Cases.version_answer) (fun _ => Cases.idle)).
  vm_compute. reflexivity.
Defined.
